(** * appgym: the web application as a reinforcement-learning environment

    A shallow embedding of [appgym/web_env.py]: the coverage reducer
    ([CoverageReporter]), the action grid ([WebEnv._actions]), the screenshot
    crop ([WebEnv._screenshot]), the selector builder (the JavaScript function
    [fullPath] evaluated by [WebEnv._elements]) and the reset/step loop of
    [WebEnv], followed by the properties of the specification.

    Conventions of the embedding.
    - A Python [int] is a [Z]; a Python [float] is the rational number it
      denotes ([Qc], rationals in lowest terms), and the float operations
      [/], [-], [+] are taken exact.  A number that reaches Python from the
      browser is a [number]: an [int] when the JSON value is integral, a
      [float] otherwise.
    - A call that may raise returns a [result]; a method of [WebEnv], which
      reads and assigns the fields of [self] and talks to the browser, is a
      function from the object to a result and the object afterwards.
    - A [dict] is a [gmap]; [collections.Counter] is a [gmultiset]. *)

From Stdlib Require Import ZArith QArith Qcanon Qround Ascii String.
From stdpp Require Import gmap gmultiset strings list fin_maps numbers pretty.

Open Scope Z_scope.

(** ** Exceptions and results *)

Inductive exn : Type :=
  | ZeroDivisionError
  | TypeError
  | AttributeError
  | DriverError (msg : string).

Inductive result (A : Type) : Type :=
  | Ok (a : A)
  | Raise (e : exn).
Arguments Ok {A} a.
Arguments Raise {A} e.

#[global] Instance result_ret : MRet result := λ A a, Ok a.
#[global] Instance result_bind : MBind result := λ A B k r,
  match r with
  | Ok a => k a
  | Raise e => Raise e
  end.

#[global] Instance result_fmap : FMap result := λ A B f r,
  match r with
  | Ok a => Ok (f a)
  | Raise e => Raise e
  end.

Definition is_ok {A} (r : result A) : bool :=
  match r with Ok _ => true | Raise _ => false end.

(** ** Python numbers *)

Definition float : Type := Qc.

Inductive number : Type :=
  | PyInt (n : Z)
  | PyFloat (f : float).

(** The value of a number as a float (Python's implicit coercion). *)
Definition to_float (a : number) : float :=
  match a with
  | PyInt n => Qc_of_Z n
  | PyFloat f => f
  end.

Definition is_zero (a : number) : bool :=
  match a with
  | PyInt n => bool_decide (n = 0)
  | PyFloat f => bool_decide (f = 0%Qc)
  end.

(** [a / b]: true division always yields a float, and raises on a zero
    divisor. *)
Definition truediv (a b : number) : result float :=
  if is_zero b then Raise ZeroDivisionError
  else Ok (to_float a / to_float b)%Qc.

(** [a + b], [a - b], [a * b]: an int when both operands are ints. *)
Definition add (a b : number) : number :=
  match a, b with
  | PyInt m, PyInt n => PyInt (m + n)
  | _, _ => PyFloat (to_float a + to_float b)%Qc
  end.

Definition sub (a b : number) : number :=
  match a, b with
  | PyInt m, PyInt n => PyInt (m - n)
  | _, _ => PyFloat (to_float a - to_float b)%Qc
  end.

Definition mul (a b : number) : number :=
  match a, b with
  | PyInt m, PyInt n => PyInt (m * n)
  | _, _ => PyFloat (to_float a * to_float b)%Qc
  end.

(** [int(f)] on a float truncates toward zero. *)
Definition int_of_float (f : float) : Z :=
  Z.quot (Qnum (this f)) (Z.pos (Qden (this f))).

Definition int (a : number) : Z :=
  match a with
  | PyInt n => n
  | PyFloat f => int_of_float f
  end.

(** [range(lo, hi)] *)
Definition range (lo hi : Z) : list Z := seqZ lo (hi - lo).

(** ** Coverage reducer *)

(** One file's entry of [window.__coverage__]; [s] maps a statement id to its
    execution count. *)
Record file_coverage : Type := { s : gmap string Z }.

(** [sum(cnt.values())] for a [Counter]: the counts of its distinct keys. *)
Definition counter_total (cnt : gmultiset Z) : nat :=
  sum_list ((λ x, multiplicity x cnt) <$> elements (dom cnt)).

Record CoverageReporter : Type := { coverage_data : gmap string file_coverage }.

Definition _file_summary (statement_coverage : gmap string Z) : nat * nat :=
  let cnt : gmultiset Z := list_to_set_disj (map_to_list statement_coverage).*2 in
  let not_covered := multiplicity 0 cnt in
  let stmts := counter_total cnt in
  (not_covered, stmts).

Definition summary (self : CoverageReporter) : result float :=
  let cov := (λ v, _file_summary (s v)) <$> (map_to_list (coverage_data self)).*2 in
  let not_covered := sum_list (fst <$> cov) in
  let stmts := sum_list (snd <$> cov) in
  q ← truediv (PyInt (Z.of_nat not_covered)) (PyInt (Z.of_nat stmts));
  Ok (1 - q)%Qc.

Definition fileA : file_coverage :=
  {| s := {[ "0" := 1; "1" := 0; "2" := 5 ]} |}.
Definition fileB : file_coverage :=
  {| s := {[ "0" := 0 ]} |}.
Definition spec_example : CoverageReporter :=
  {| coverage_data := {[ "fileA" := fileA; "fileB" := fileB ]} |}.

(** The totals of the specification: per file, the statements with execution
    count 0 and all statements, summed over the files of the map. *)
Definition not_covered_in (v : file_coverage) : nat :=
  size (filter (λ kv : string * Z, kv.2 = 0) (s v)).

Definition stmts_in (v : file_coverage) : nat := size (s v).

Definition total_not_covered (m : gmap string file_coverage) : nat :=
  map_fold (λ _ v acc, not_covered_in v + acc)%nat 0%nat m.

Definition total_stmts (m : gmap string file_coverage) : nat :=
  map_fold (λ _ v acc, stmts_in v + acc)%nat 0%nat m.

(** Every statement of every file satisfies [P]. *)
Definition all_counts (P : Z → Prop) (m : gmap string file_coverage) : Prop :=
  ∀ file v stmt n, m !! file = Some v → s v !! stmt = Some n → P n.

(** ** The named tuples of the environment *)

Module Rect.
Record t : Type := mk { x : number; y : number; width : number; height : number }.
End Rect.

Module Action.
Record t : Type := mk { x : Z; y : Z; type : string }.
End Action.

Module Element.
Record t : Type := mk { tag : string; selector : string; bounding_box : Rect.t }.
End Element.

(** ** Pixel buffers and slicing *)

(** A decoded screenshot, [np.array(Image.open(...))]: an array of shape
    (height, width, channels), kept as its rows of pixels together with the
    first two components of its shape. *)
Definition pixel : Type := list Z.

Record ndarray : Type :=
  { nd_height : Z; nd_width : Z; nd_rows : list (list pixel) }.

Definition shape (a : ndarray) : Z * Z := (nd_height a, nd_width a).

Definition well_shaped (a : ndarray) : Prop :=
  Z.of_nat (length (nd_rows a)) = nd_height a
  ∧ Forall (λ row, Z.of_nat (length row) = nd_width a) (nd_rows a)
  ∧ 0 ≤ nd_width a.

(** One bound of a slice [start:stop] on a sequence of length [len]: a
    negative bound counts from the end, and the result is clipped to
    [0..len]. *)
Definition slice_bound (i len : Z) : Z :=
  if bool_decide (i < 0) then Z.max (i + len) 0 else Z.min i len.

(** [slice(start, stop).indices(len)]: the first index and the number of
    items selected. *)
Definition slice_indices (start stop len : Z) : Z * Z :=
  let lo := slice_bound start len in
  let hi := slice_bound stop len in
  (lo, Z.max 0 (hi - lo)).

Definition slice {A} (start stop : Z) (l : list A) : list A :=
  let '(lo, n) := slice_indices start stop (Z.of_nat (length l)) in
  take (Z.to_nat n) (drop (Z.to_nat lo) l).

(** A slice bound must be an int: a float raises TypeError ("slice indices
    must be integers"), whatever its value. *)
Definition index (a : number) : result Z :=
  match a with
  | PyInt n => Ok n
  | PyFloat _ => Raise TypeError
  end.

(** [img[r0:r1, c0:c1]] *)
Definition getitem (img : ndarray) (r0 r1 c0 c1 : number) : result ndarray :=
  r0 ← index r0; r1 ← index r1; c0 ← index c0; c1 ← index c1;
  Ok {| nd_height := (slice_indices r0 r1 (nd_height img)).2;
        nd_width := (slice_indices c0 c1 (nd_width img)).2;
        nd_rows := slice c0 c1 <$> slice r0 r1 (nd_rows img) |}.

Module State.
Record t : Type := mk { image : ndarray; elements : list Element.t }.
End State.

(** ** The document of the page and the selector builder *)

(** An element of the document tree with the attributes that [fullPath] and
    the enumeration read; [children] holds its element children in order. *)
#[local] Unset Elimination Schemes.
Inductive tree : Type :=
  Node (tagName localName id : string) (children : list tree).
#[local] Set Elimination Schemes.

(** The position of an element below its parent: the parent's attributes,
    the preceding element siblings (nearest first) and the following ones. *)
Record frame : Type :=
  { f_tagName : string; f_localName : string; f_id : string;
    f_left : list tree; f_right : list tree }.

(** An element of a document: its subtree and the frames of its ancestors,
    innermost first.  The document element has no frame. *)
Record element : Type := { focus : tree; ctx : list frame }.

(** A node that [el] ranges over in [fullPath]: an element, or the document
    itself. *)
Inductive node : Type :=
  | Element (e : element)
  | Document (documentElement : tree).

Definition tagName (e : element) : string :=
  match focus e with Node t _ _ _ => t end.
Definition localName (e : element) : string :=
  match focus e with Node _ l _ _ => l end.
Definition id (e : element) : string :=
  match focus e with Node _ _ i _ => i end.

Definition parentNode (n : node) : option node :=
  match n with
  | Document _ => None
  | Element e =>
      match ctx e with
      | [] => Some (Document (focus e))
      | f :: up =>
          Some (Element
            {| focus := Node (f_tagName f) (f_localName f) (f_id f)
                             (reverse (f_left f) ++ focus e :: f_right f);
               ctx := up |})
      end
  end.

Definition previousElementSibling (e : element) : option element :=
  match ctx e with
  | [] => None
  | f :: up =>
      match f_left f with
      | [] => None
      | t :: before =>
          Some {| focus := t;
                  ctx := {| f_tagName := f_tagName f; f_localName := f_localName f;
                            f_id := f_id f; f_left := before;
                            f_right := focus e :: f_right f |} :: up |}
      end
  end.

(** [el == el.ownerDocument.documentElement] *)
Definition is_documentElement (e : element) : bool :=
  match ctx e with [] => true | _ => false end.

Definition lower_ascii (c : ascii) : ascii :=
  let n := nat_of_ascii c in
  if bool_decide (65 ≤ n ≤ 90)%nat then ascii_of_nat (n + 32) else c.

Fixpoint toLowerCase (str : string) : string :=
  match str with
  | EmptyString => EmptyString
  | String c rest => String (lower_ascii c) (toLowerCase rest)
  end.

(** The truth value of a string: false for the empty string only. *)
Definition truthy (str : string) : bool :=
  match str with EmptyString => false | _ => true end.

(** [for (var c=1,e=el; e.previousElementSibling; e=e.previousElementSibling,c++);] *)
Fixpoint count_siblings (fuel : nat) (c : nat) (e : element) : nat :=
  match fuel with
  | O => c
  | S fuel =>
      match previousElementSibling e with
      | None => c
      | Some e' => count_siblings fuel (S c) e'
      end
  end.

Definition left_siblings (e : element) : nat :=
  match ctx e with [] => 0%nat | f :: _ => length (f_left f) end.

(** The [while (el.parentNode)] loop of [fullPath]; [names.unshift] is a
    cons. *)
Fixpoint fullPath_loop (fuel : nat) (el : node) (names : list string) : list string :=
  match fuel with
  | O => names
  | S fuel =>
      match el, parentNode el with
      | Element e, Some parent =>
          if truthy (id e) then ("#" +:+ id e) :: names
          else
            let names :=
              if is_documentElement e then toLowerCase (tagName e) :: names
              else
                let c := count_siblings (left_siblings e) 1 e in
                (toLowerCase (tagName e) +:+ ":nth-child(" +:+ pretty c +:+ ")") :: names in
            fullPath_loop fuel parent names
      | _, _ => names
      end
  end.

Definition fullPath (el : element) : string :=
  String.concat " > " (fullPath_loop (S (length (ctx el))) (Element el) []).

(** [root.querySelectorAll("*")]: the descendants of an element in document
    order, each with its place in the document. *)
Fixpoint descendants_of (t : tree) (c : list frame) : list element :=
  match t with
  | Node tn ln i kids =>
      (fix go (before after : list tree) : list element :=
         match after with
         | [] => []
         | k :: after' =>
             let c' := {| f_tagName := tn; f_localName := ln; f_id := i;
                          f_left := before; f_right := after' |} :: c in
             {| focus := k; ctx := c' |} :: descendants_of k c' ++ go (k :: before) after'
         end) [] kids
  end.

Definition querySelectorAll_star (root : element) : list element :=
  descendants_of (focus root) (ctx root).

(** ** The browser driver

    The driver (pyppeteer and the page it controls) is outside the
    repository.  A page is a state of the browser tab; navigation and clicks
    change it, the scripts that [WebEnv] evaluates and the screenshot only
    read it. *)
Class Driver (Page : Type) : Type :=
  { (** [launch(headless=...)] followed by [browser.newPage()] *)
    newPage : bool → result Page;
    (** [page.goto(url)] *)
    goto : string → Page → result Page;
    (** [page.mouse.click(x=..., y=...)] *)
    mouse_click : number → number → Page → result Page;
    (** [page.evaluate('() => {return window.__coverage__}')] *)
    window_coverage : Page → result (gmap string file_coverage);
    (** [np.array(Image.open(BytesIO(page.screenshot())))] *)
    screenshot : Page → result ndarray;
    (** [document.querySelector(selector)], [None] for JavaScript's null *)
    querySelector : string → Page → option element;
    (** [e.getBoundingClientRect()] as decoded by Python *)
    getBoundingClientRect : Page → element → Rect.t }.

(** ** The environment *)

Section WebEnv.
Context {Page : Type} `{!Driver Page}.

(** The attributes of a [WebEnv] object.  [page], [viewport] and [coverage]
    do not exist before [reset] assigns them.  [CELL_SIZE] is the class
    attribute, read through [self]. *)
Record WebEnv : Type :=
  { CELL_SIZE : Z;
    app_url : string;
    content_selector : string;
    headless : bool;
    page : option Page;
    viewport : option Rect.t;
    coverage : option float }.

Definition set_page (p : Page) (self : WebEnv) : WebEnv :=
  {| CELL_SIZE := CELL_SIZE self; app_url := app_url self;
     content_selector := content_selector self; headless := headless self;
     page := Some p; viewport := viewport self; coverage := coverage self |}.

Definition set_viewport (v : Rect.t) (self : WebEnv) : WebEnv :=
  {| CELL_SIZE := CELL_SIZE self; app_url := app_url self;
     content_selector := content_selector self; headless := headless self;
     page := page self; viewport := Some v; coverage := coverage self |}.

Definition set_coverage (c : float) (self : WebEnv) : WebEnv :=
  {| CELL_SIZE := CELL_SIZE self; app_url := app_url self;
     content_selector := content_selector self; headless := headless self;
     page := page self; viewport := viewport self; coverage := Some c |}.

(** A method: from the object to what it returns or raises, and the object
    afterwards. *)
Definition M (A : Type) : Type := WebEnv → result A * WebEnv.

#[global] Instance M_ret : MRet M := λ A a self, (Ok a, self).
#[global] Instance M_bind : MBind M := λ A B k m self,
  match m self with
  | (Ok a, self') => k a self'
  | (Raise e, self') => (Raise e, self')
  end.

Definition lift {A} (r : result A) : M A := λ self, (r, self).
Definition gets {A} (f : WebEnv → A) : M A := λ self, (Ok (f self), self).
Definition assign (f : WebEnv → WebEnv) : M unit := λ self, (Ok (), f self).
(** Reading an attribute that [reset] has not assigned yet. *)
Definition attr {A} (f : WebEnv → option A) : M A := λ self,
  match f self with
  | Some a => (Ok a, self)
  | None => (Raise AttributeError, self)
  end.

(** [self._run_cmd(...)] on a command that changes the page. *)
Definition _run_cmd (cmd : Page → result Page) : M unit :=
  p ← attr page;
  p' ← lift (cmd p);
  assign (set_page p').

(** [self._run_cmd(...)] on a command that reads the page. *)
Definition _run_query {A} (q : Page → result A) : M A :=
  p ← attr page;
  lift (q p).

(** [content_selector] is None or a string; [not content_selector] holds for
    None and for the empty string. *)
Definition __init__ (app_url : string) (headless : bool)
    (content_selector : option string) : WebEnv :=
  {| CELL_SIZE := 20;
     app_url := app_url;
     content_selector :=
       match content_selector with
       | None => "html"
       | Some sel => if negb (truthy sel) then "html" else sel
       end;
     headless := headless;
     page := None; viewport := None; coverage := None |}.

Definition _actions : M (list Action.t) :=
  v ← attr viewport;
  cell ← gets CELL_SIZE;
  let w := Rect.width v in
  let h := Rect.height v in
  cw ← lift (int_of_float <$> truediv w (PyInt cell));
  ch ← lift (int_of_float <$> truediv h (PyInt cell));
  half ← lift (truediv (PyInt cell) (PyInt 2));
  mret (cy ← range 1 (ch + 1);
        cx ← range 1 (cw + 1);
        [Action.mk (int (sub (mul (PyInt cx) (PyInt cell)) (PyFloat half)))
                   (int (sub (mul (PyInt cy) (PyInt cell)) (PyFloat half)))
                   "click"]).

Definition _coverage : M float :=
  coverage ← _run_query window_coverage;
  lift (summary {| coverage_data := coverage |}).

Definition _screenshot : M ndarray :=
  img ← _run_query screenshot;
  v ← attr viewport;
  lift (getitem img
          (Rect.y v) (add (Rect.y v) (Rect.height v))
          (Rect.x v) (add (Rect.x v) (Rect.width v))).

Definition evaluation_failed : exn := DriverError "Evaluation failed".

Definition _viewport : M Rect.t :=
  sel ← gets content_selector;
  p ← attr page;
  match querySelector sel p with
  | None => lift (Raise evaluation_failed)
  | Some e => mret (getBoundingClientRect p e)
  end.

Definition _elements : M (list Element.t) :=
  sel ← gets content_selector;
  p ← attr page;
  match querySelector sel p with
  | None => lift (Raise evaluation_failed)
  | Some root =>
      mret ((λ e, Element.mk (localName e) (fullPath e) (getBoundingClientRect p e))
              <$> querySelectorAll_star root)
  end.

Definition _state : M State.t :=
  image ← _screenshot;
  elements ← _elements;
  mret (State.mk image elements).

Definition reset : M (State.t * list Action.t) :=
  h ← gets headless;
  p ← lift (newPage h);
  assign (set_page p);;
  url ← gets app_url;
  _run_cmd (goto url);;
  v ← _viewport;
  assign (set_viewport v);;
  c ← _coverage;
  assign (set_coverage c);;
  st ← _state;
  acts ← _actions;
  mret (st, acts).

Definition step (action : Action.t) : M (State.t * list Action.t * float) :=
  _ ← attr page;
  v ← attr viewport;
  _run_cmd (mouse_click (add (Rect.x v) (PyInt (Action.x action)))
                        (add (Rect.y v) (PyInt (Action.y action))));;
  old_coverage ← attr coverage;
  new_coverage ← _coverage;
  let reward := (new_coverage - old_coverage)%Qc in
  assign (set_coverage new_coverage);;
  st ← _state;
  acts ← _actions;
  mret (st, acts, reward).
End WebEnv.

Arguments WebEnv Page : clear implicits.
Arguments M Page : clear implicits.

Arguments __init__ Page app_url headless content_selector : clear implicits.

(** ** The specification's reading of the components *)

(** Truncation of a rational to an integer. *)
Definition truncate (q : Qc) : Z :=
  if decide (0 ≤ q)%Qc then Qfloor q else Qceiling q.

(** The center of cell number [k] (counted from 1) along one axis. *)
Definition cell_center (k cellSize : Z) : Z :=
  truncate (Qc_of_Z k * Qc_of_Z cellSize - Qc_of_Z cellSize / Qc_of_Z 2)%Qc.

(** Section 4.1: the action grid of a viewport, rows outer. *)
Definition generateActions (viewport : Rect.t) (cellSize : Z) : list Action.t :=
  let cols := Qfloor (to_float (Rect.width viewport) / Qc_of_Z cellSize)%Qc in
  let rows := Qfloor (to_float (Rect.height viewport) / Qc_of_Z cellSize)%Qc in
  flat_map (λ row,
    map (λ col, Action.mk (cell_center col cellSize) (cell_center row cellSize) "click")
        (seqZ 1 cols))
    (seqZ 1 rows).

(** Section 4.3: an element followed by its ancestors up to the document
    element. *)
Fixpoint ancestors_from (t : tree) (c : list frame) : list element :=
  {| focus := t; ctx := c |} ::
  match c with
  | [] => []
  | f :: up =>
      ancestors_from
        (Node (f_tagName f) (f_localName f) (f_id f)
              (reverse (f_left f) ++ t :: f_right f)) up
  end.

Definition ancestors (e : element) : list element :=
  ancestors_from (focus e) (ctx e).

(** The ancestors that the walk visits: up to and including the first one
    with a non-empty id. *)
Fixpoint upto_id (chain : list element) : list element :=
  match chain with
  | [] => []
  | e :: rest => if truthy (id e) then [e] else e :: upto_id rest
  end.

(** The segment that one visited element contributes. *)
Definition segment (e : element) : string :=
  if truthy (id e) then "#" +:+ id e
  else if is_documentElement e then toLowerCase (tagName e)
  else toLowerCase (tagName e) +:+ ":nth-child("
         +:+ pretty (1 + left_siblings e)%nat +:+ ")".

Definition buildSelector (e : element) : string :=
  String.concat " > " (reverse (segment <$> upto_id (ancestors e))).

(** A number that is an integer in value. *)
Definition integral (a : number) : Prop := ∃ n : Z, to_float a = Qc_of_Z n.

Definition is_int (a : number) : Prop :=
  match a with PyInt _ => True | PyFloat _ => False end.

(** ** A small application, to run the environment on

    A page of 80 by 60 pixels whose document is
    html > body > (button#go, p).  One statement of its script runs on load,
    a second one runs at each click in the left half of the page, and a click
    in the right half reloads the script (the counters start again). *)

Record demo_page : Type := { loaded : bool; go_hits : Z }.

Definition demo_document : tree :=
  Node "HTML" "html" ""
    [Node "BODY" "body" ""
       [Node "BUTTON" "button" "go" []; Node "P" "p" "" []]].

Definition demo_html : element := {| focus := demo_document; ctx := [] |}.

Definition demo_select (sel : string) : option element :=
  if decide (sel = "html") then Some demo_html
  else if decide (sel = "body") then head (querySelectorAll_star demo_html)
  else if decide (sel = "#go") then querySelectorAll_star demo_html !! 1%nat
  else if decide (sel = "p") then querySelectorAll_star demo_html !! 2%nat
  else None.

Definition demo_box (e : element) : Rect.t :=
  if decide (localName e = "html") then
    Rect.mk (PyInt 0) (PyInt 0) (PyInt 80) (PyInt 100)
  else if decide (localName e = "body") then
    Rect.mk (PyInt 0) (PyInt 0) (PyInt 80) (PyInt 60)
  else if decide (localName e = "button") then
    Rect.mk (PyInt 8) (PyInt 8) (PyInt 40) (PyInt 20)
  else
    Rect.mk (PyInt 8) (PyFloat (Q2Qc (73 # 2))) (PyInt 64) (PyFloat (Q2Qc (35 # 2))).

Definition demo_screenshot : ndarray :=
  {| nd_height := 60; nd_width := 80;
     nd_rows := replicate 60 (replicate 80 [255; 255; 255]) |}.

Definition demo_coverage (p : demo_page) : gmap string file_coverage :=
  {[ "app.js" := {| s := {[ "0" := 1; "1" := go_hits p ]} |} ]}.

#[global] Instance demo_driver : Driver demo_page :=
  {| newPage _ := Ok {| loaded := false; go_hits := 0 |};
     goto _ _ := Ok {| loaded := true; go_hits := 0 |};
     mouse_click cx _ p :=
       if decide (to_float cx < Qc_of_Z 40)%Qc
       then Ok {| loaded := loaded p; go_hits := go_hits p + 1 |}
       else Ok {| loaded := loaded p; go_hits := 0 |};
     window_coverage p :=
       if loaded p then Ok (demo_coverage p) else Raise evaluation_failed;
     screenshot _ := Ok demo_screenshot;
     querySelector sel _ := demo_select sel;
     getBoundingClientRect _ e := demo_box e |}.

Definition click_at (cx cy : Z) : Action.t := Action.mk cx cy "click".

Definition demo_env (content_selector : option string) : WebEnv demo_page :=
  __init__ demo_page "http://localhost:3000/" true content_selector.

(** The viewport of the specification's example, 100 by 100. *)
Definition viewport_100 : Rect.t :=
  Rect.mk (PyInt 0) (PyInt 0) (PyInt 100) (PyInt 100).

Definition demo_env_100 : WebEnv demo_page := set_viewport viewport_100 (demo_env None).

(** The specification's example for the selector builder: an element with
    id "foo" three levels below the document element, and a child of it. *)
Definition foo_tree : tree := Node "DIV" "div" "foo" [Node "SPAN" "span" "" []].

Definition foo_frames : list frame :=
  [ {| f_tagName := "SECTION"; f_localName := "section"; f_id := "";
       f_left := [Node "H1" "h1" "" []]; f_right := [] |};
    {| f_tagName := "MAIN"; f_localName := "main"; f_id := "";
       f_left := []; f_right := [] |};
    {| f_tagName := "BODY"; f_localName := "body"; f_id := "";
       f_left := [Node "HEAD" "head" "" []]; f_right := [] |};
    {| f_tagName := "HTML"; f_localName := "html"; f_id := "";
       f_left := []; f_right := [] |} ].

Definition foo_element : element := {| focus := foo_tree; ctx := foo_frames |}.

(** ** The states of a session *)

Section session.
Context {Page : Type} `{!Driver Page}.

(** The object is ready for [step]: [reset] has assigned its page and its
    viewport, and its stored coverage is the summary of [before], the
    coverage map measured last. *)
Definition Ready (self : WebEnv Page) (before : gmap string file_coverage) : Prop :=
  is_Some (page self) ∧ is_Some (viewport self)
  ∧ ∃ c, coverage self = Some c ∧ summary {| coverage_data := before |} = Ok c.

(** The attributes that [__init__] and [reset] fix for a session. *)
Definition same_session (self self' : WebEnv Page) : Prop :=
  CELL_SIZE self' = CELL_SIZE self
  ∧ app_url self' = app_url self
  ∧ content_selector self' = content_selector self
  ∧ headless self' = headless self
  ∧ viewport self' = viewport self.

(** The object after any number of [step] calls, whether they return or
    raise. *)
Inductive after_steps (self : WebEnv Page) : WebEnv Page → Prop :=
  | after_none : after_steps self self
  | after_step self' action :
      after_steps self self' → after_steps self (step action self').2.

(** A method that leaves the session attributes as they are. *)
Definition keeps_session {A} (m : M Page A) : Prop :=
  ∀ self, same_session self (m self).2.

(** A method that assigns no attribute at all. *)
Definition reads_only {A} (m : M Page A) : Prop :=
  ∀ self, (m self).2 = self.
End session.

(** The demo environment on the content root "body", after [reset] and after
    one click on the button. *)
Definition demo_ready : WebEnv demo_page := (reset (demo_env (Some "body"))).2.

Definition demo_clicked : WebEnv demo_page := (step (click_at 10 10) demo_ready).2.

(** A map whose statements all ran, and one whose statements never ran. *)
Definition all_covered : CoverageReporter :=
  {| coverage_data := {[ "app.js" := {| s := {[ "0" := 3; "1" := 1 ]} |} ]} |}.

Definition none_covered : CoverageReporter :=
  {| coverage_data := {[ "app.js" := {| s := {[ "0" := 0; "1" := 0 ]} |} ]} |}.

(** ** Further devices for stating properties *)

(** The coverage map with every execution count sent through [f]. *)
Definition map_counts (f : Z → Z) (m : gmap string file_coverage) :
    gmap string file_coverage :=
  (λ v, {| s := f <$> s v |}) <$> m.

(** The pixel of an array at row [i], column [j]. *)
Definition pixel_at (a : ndarray) (i j : Z) : option pixel :=
  row ← nd_rows a !! Z.to_nat i; row !! Z.to_nat j.

(** The attributes that [__init__] fixes. *)
Definition same_session_config {Page : Type} (self self' : WebEnv Page) : Prop :=
  CELL_SIZE self' = CELL_SIZE self
  ∧ app_url self' = app_url self
  ∧ content_selector self' = content_selector self
  ∧ headless self' = headless self.

(** The demo environment on the content root "p", whose box is not on whole
    pixels: [reset] has assigned the page, the viewport and the coverage and
    then raised. *)
Definition demo_fractional : WebEnv demo_page := (reset (demo_env (Some "p"))).2.

(** The same page served without instrumentation: its coverage map is
    empty. *)
#[global] Instance bare_driver : Driver unit :=
  {| newPage _ := Ok ();
     goto _ _ := Ok ();
     mouse_click _ _ _ := Ok ();
     window_coverage _ := Ok ∅;
     screenshot _ := Ok demo_screenshot;
     querySelector sel _ := demo_select sel;
     getBoundingClientRect _ e := demo_box e |}.

Definition bare_env : WebEnv unit := __init__ unit "http://localhost:3000/" true (Some "body").

(** The demo environment with a content root whose top edge is five pixels
    above the screenshot. *)
Definition demo_scrolled : WebEnv demo_page :=
  set_viewport (Rect.mk (PyInt 0) (PyInt (-5)) (PyInt 80) (PyInt 30)) demo_ready.

(** The demo environment on the content root "#go", a box within the
    screenshot. *)
Definition demo_go : WebEnv demo_page := (reset (demo_env (Some "#go"))).2.

(** A document with a list of three items, none with an id:
    html > body > ul > (li, li, li). *)
Definition list_document : tree :=
  Node "HTML" "html" ""
    [Node "BODY" "body" ""
       [Node "UL" "ul" ""
          [Node "LI" "li" "" []; Node "LI" "li" "" []; Node "LI" "li" "" []]]].

Definition list_elements : list element :=
  querySelectorAll_star {| focus := list_document; ctx := [] |}.

Definition list_ul : element := default demo_html (list_elements !! 1%nat).
Definition list_item_1 : element := default demo_html (list_elements !! 2%nat).
Definition list_item_3 : element := default demo_html (list_elements !! 4%nat).

(** ** Properties of [Counter] *)

Section counter.
Implicit Types (l : list Z) (X : gmultiset Z).

Lemma counter_total_size X : counter_total X = size X.
Proof.
  destruct X as [m]. unfold counter_total, size, gmultiset_size; simpl.
  unfold elements at 2, gmultiset_elements, dom, gmultiset_dom.
  assert (Hperm : elements (dom m) ≡ₚ (map_to_list m).*1).
  { rewrite dom_alt. apply elements_list_to_set, NoDup_fst_map_to_list. }
  rewrite Hperm. clear Hperm.
  assert (Hin : Forall (λ kv, m !! kv.1 = Some kv.2) (map_to_list m)).
  { apply Forall_forall. intros [x n] Hx. by apply elem_of_map_to_list. }
  induction Hin as [|[x n] l Hx _ IH]; [done|].
  rewrite bind_cons, length_app, length_replicate. simpl in *.
  unfold multiplicity at 1; simpl. rewrite Hx. f_equal. apply IH.
Qed.

Lemma counter_zero_list l :
  multiplicity 0 (list_to_set_disj l : gmultiset Z) = length (filter (λ n, n = 0) l).
Proof.
  induction l as [|n l IH]; [done|].
  rewrite list_to_set_disj_cons, multiplicity_disj_union, multiplicity_singleton, IH.
  rewrite filter_cons. repeat case_decide; simpl; congruence.
Qed.

Lemma counter_total_list l : counter_total (list_to_set_disj l) = length l.
Proof.
  rewrite counter_total_size. induction l as [|n l IH]; [done|].
  rewrite list_to_set_disj_cons, gmultiset_size_disj_union, gmultiset_size_singleton, IH.
  done.
Qed.
End counter.

Example summary_example : summary spec_example = Ok (Q2Qc (1 # 2)).
Proof. vm_compute. reflexivity. Qed.


(** ** The coverage reducer *)

Section coverage.
Implicit Types (m : gmap string file_coverage) (v : file_coverage).

Lemma size_filter_zero (c : gmap string Z) :
  size (filter (λ kv : string * Z, kv.2 = 0) c)
  = length (filter (λ n, n = 0) (map_to_list c).*2).
Proof.
  induction c as [|k n c Hk IH] using map_ind; [done|].
  rewrite map_to_list_insert by done. rewrite fmap_cons, filter_cons. simpl.
  rewrite map_filter_insert. simpl. case_decide.
  - rewrite map_size_insert_None, IH; [done|].
    apply map_lookup_filter_None; by left.
  - by rewrite delete_id, IH.
Qed.

Lemma _file_summary_spec v :
  _file_summary (s v) = (not_covered_in v, stmts_in v).
Proof.
  unfold _file_summary, not_covered_in, stmts_in.
  rewrite counter_zero_list, counter_total_list, size_filter_zero.
  by rewrite length_fmap, length_map_to_list.
Qed.

Lemma map_fold_sum (g : file_coverage → nat) m :
  map_fold (λ _ v acc, g v + acc)%nat 0%nat m = sum_list (g <$> (map_to_list m).*2).
Proof.
  rewrite map_fold_foldr. induction (map_to_list m) as [|[k v] l IH]; [done|].
  simpl. by rewrite IH.
Qed.

Lemma summary_totals self :
  summary self =
    truediv (PyInt (Z.of_nat (total_not_covered (coverage_data self))))
            (PyInt (Z.of_nat (total_stmts (coverage_data self))))
    ≫= λ q, Ok (1 - q)%Qc.
Proof.
  unfold summary, total_not_covered, total_stmts. rewrite !map_fold_sum.
  rewrite (list_fmap_ext (λ v, _file_summary (s v))
             (λ v, (not_covered_in v, stmts_in v)) _ (λ _ v _, _file_summary_spec v)).
  by rewrite <- !list_fmap_compose.
Qed.

Lemma truediv_int (a b : Z) :
  truediv (PyInt a) (PyInt b)
  = if decide (b = 0) then Raise ZeroDivisionError else Ok (Qc_of_Z a / Qc_of_Z b)%Qc.
Proof. unfold truediv; simpl. by destruct (decide (b = 0)); case_bool_decide. Qed.

Lemma summary_ok self :
  (0 < total_stmts (coverage_data self))%nat →
  summary self
  = Ok (1 - Qc_of_Z (Z.of_nat (total_not_covered (coverage_data self)))
            / Qc_of_Z (Z.of_nat (total_stmts (coverage_data self))))%Qc.
Proof.
  intros Hs. rewrite summary_totals, truediv_int.
  destruct (decide _) as [E|_]; [lia|done].
Qed.

Lemma summary_raises self :
  total_stmts (coverage_data self) = 0%nat → summary self = Raise ZeroDivisionError.
Proof. intros Hs. by rewrite summary_totals, truediv_int, Hs. Qed.

Lemma total_not_covered_nonzero m :
  all_counts (λ n, n ≠ 0) m → total_not_covered m = 0%nat.
Proof.
  intros Hall. unfold total_not_covered. rewrite map_fold_sum.
  assert (Hin : Forall (λ kv, m !! kv.1 = Some kv.2) (map_to_list m)).
  { apply Forall_forall. intros [k v] Hk. by apply elem_of_map_to_list. }
  induction Hin as [|[k v] l Hk _ IH]; [done|]. csimpl in *. rewrite IH.
  unfold not_covered_in. rewrite Nat.add_0_r. apply map_size_empty_iff, map_empty.
  intros stmt. apply map_lookup_filter_None. right. intros n Hn. simpl.
  by apply (Hall k v stmt n).
Qed.

Lemma total_not_covered_zero m :
  all_counts (λ n, n = 0) m → total_not_covered m = total_stmts m.
Proof.
  intros Hall. unfold total_not_covered, total_stmts. rewrite !map_fold_sum.
  assert (Hin : Forall (λ kv, m !! kv.1 = Some kv.2) (map_to_list m)).
  { apply Forall_forall. intros [k v] Hk. by apply elem_of_map_to_list. }
  induction Hin as [|[k v] l Hk _ IH]; [done|]. csimpl in *. rewrite IH.
  unfold not_covered_in, stmts_in. f_equal. f_equal. apply map_filter_id.
  intros stmt n Hn. simpl. by apply (Hall k v stmt n).
Qed.
End coverage.

(** C2. On a coverage map with at least one statement in total, [summary]
    returns 1.0 - (totalNotCovered / totalStmts), where totalNotCovered counts
    the statements with execution count 0 over all files and totalStmts counts
    all statements; on the map of the specification's example it returns 0.5. *)
Theorem summary_is_covered_ratio (self : CoverageReporter) :
  (0 < total_stmts (coverage_data self))%nat →
  summary self
  = Ok (1 - Qc_of_Z (Z.of_nat (total_not_covered (coverage_data self)))
            / Qc_of_Z (Z.of_nat (total_stmts (coverage_data self))))%Qc
  ∧ summary spec_example = Ok (Q2Qc (1 # 2)).
Proof.
  intros Hs. split; [by apply summary_ok|]. vm_compute. reflexivity.
Qed.

Lemma summary_is_covered_ratio_witness :
  (0 < total_stmts (coverage_data spec_example))%nat
  ∧ total_not_covered (coverage_data spec_example) = 2%nat
  ∧ total_stmts (coverage_data spec_example) = 4%nat
  ∧ summary spec_example = Ok (1 - Qc_of_Z 2 / Qc_of_Z 4)%Qc.
Proof.
  assert (Hn : total_not_covered (coverage_data spec_example) = 2%nat)
    by (vm_compute; reflexivity).
  assert (Ht : total_stmts (coverage_data spec_example) = 4%nat)
    by (vm_compute; reflexivity).
  assert (Hs : (0 < total_stmts (coverage_data spec_example))%nat)
    by (rewrite Ht; lia).
  split; [exact Hs|]. split; [exact Hn|]. split; [exact Ht|].
  destruct (summary_is_covered_ratio spec_example Hs) as [H _].
  rewrite Hn, Ht in H. exact H.
Defined.

(** C4. On a coverage map with no statement in total (the empty map among
    them) [summary] raises ZeroDivisionError: it returns no ratio at all, so
    neither 0.0 nor 1.0 nor any other float. *)
Theorem summary_zero_statements_raises (self : CoverageReporter) :
  total_stmts (coverage_data self) = 0%nat →
  summary self = Raise ZeroDivisionError ∧ ∀ q : float, summary self ≠ Ok q.
Proof.
  intros Hs. rewrite (summary_raises self Hs). split; [done|]. by intros q.
Qed.

Lemma summary_zero_statements_raises_witness :
  total_stmts (coverage_data {| coverage_data := ∅ |}) = 0%nat
  ∧ summary {| coverage_data := ∅ |} = Raise ZeroDivisionError
  ∧ ∀ q : float, summary {| coverage_data := ∅ |} ≠ Ok q.
Proof.
  split; [reflexivity|].
  apply (summary_zero_statements_raises {| coverage_data := ∅ |}). reflexivity.
Defined.

(** C8, as stated, fails: a map that is not empty but whose only file has no
    statement satisfies both premises, and [summary] raises on it. *)
Lemma summary_all_nonzero_counterexample :
  ¬ (∀ self : CoverageReporter,
       coverage_data self ≠ ∅ →
       all_counts (λ n, n ≠ 0) (coverage_data self) →
       summary self = Ok 1%Qc).
Proof.
  intros H.
  specialize (H {| coverage_data := {[ "fileA" := {| s := ∅ |} ]} |}).
  assert (E : summary {| coverage_data := {[ "fileA" := {| s := ∅ |} ]} |}
              = Raise ZeroDivisionError) by (vm_compute; reflexivity).
  rewrite E in H. simpl in H.
  assert (Ok 1%Qc = Raise ZeroDivisionError → False) by discriminate.
  apply H0. symmetry. apply H.
  - apply insert_non_empty.
  - intros file v stmt n Hf Hv. apply lookup_singleton_Some in Hf as [_ <-].
    simpl in Hv. by rewrite lookup_empty in Hv.
Qed.

(** C8, amended. On a coverage map with at least one statement in total:
    when every statement has a nonzero execution count [summary] returns
    exactly 1.0, and when every statement has execution count 0 it returns
    exactly 0.0. *)
Theorem summary_all_or_nothing (self : CoverageReporter) :
  (0 < total_stmts (coverage_data self))%nat →
  (all_counts (λ n, n ≠ 0) (coverage_data self) → summary self = Ok 1%Qc)
  ∧ (all_counts (λ n, n = 0) (coverage_data self) → summary self = Ok 0%Qc).
Proof.
  intros Hs. rewrite (summary_ok self Hs).
  assert (Hne : Qc_of_Z (Z.of_nat (total_stmts (coverage_data self))) ≠ 0%Qc).
  { rewrite <- Z2Qc_inj_0. intros E%Z2Qc_inj. lia. }
  split; intros Hall; f_equal.
  - rewrite (total_not_covered_nonzero _ Hall).
    change (Z.of_nat 0) with 0. rewrite Z2Qc_inj_0. by field.
  - rewrite (total_not_covered_zero _ Hall). by field.
Qed.

Lemma summary_all_or_nothing_witness :
  summary all_covered = Ok 1%Qc ∧ summary none_covered = Ok 0%Qc.
Proof.
  assert (H1 : (0 < total_stmts (coverage_data all_covered))%nat)
    by (vm_compute; lia).
  assert (H0 : (0 < total_stmts (coverage_data none_covered))%nat)
    by (vm_compute; lia).
  split.
  - apply (proj1 (summary_all_or_nothing all_covered H1)).
    intros file v stmt n Hv Hn. unfold all_covered in Hv. simpl in Hv.
    apply lookup_singleton_Some in Hv as [_ <-]. simpl in Hn.
    apply lookup_insert_Some in Hn as [[_ <-]|[_ [_ <-]%lookup_singleton_Some]]; lia.
  - apply (proj2 (summary_all_or_nothing none_covered H0)).
    intros file v stmt n Hv Hn. unfold none_covered in Hv. simpl in Hv.
    apply lookup_singleton_Some in Hv as [_ <-]. simpl in Hn.
    by apply lookup_insert_Some in Hn as [[_ <-]|[_ [_ <-]%lookup_singleton_Some]].
Defined.

(** ** Numbers *)

Section numbers.
Lemma int_of_float_truncate (q : Qc) : int_of_float q = truncate q.
Proof.
  unfold int_of_float, truncate. destruct q as [[n d] Hc]; simpl.
  destruct (decide _) as [Hq|Hq].
  - unfold Qcle, Qle in Hq; simpl in Hq. unfold Qfloor.
    apply Z.quot_div_nonneg; lia.
  - unfold Qcle, Qle in Hq; simpl in Hq. unfold Qceiling, Qfloor; simpl.
    rewrite <- (Z.opp_involutive n) at 1. rewrite Z.quot_opp_l by lia.
    f_equal. apply Z.quot_div_nonneg; lia.
Qed.

(** [int] rounds toward zero on either side of it. *)
Example int_of_float_rounds_toward_zero :
  int_of_float (Q2Qc (7 # 2)) = 3 ∧ int_of_float (Q2Qc (-7 # 2)) = -3.
Proof. split; reflexivity. Qed.

Lemma int_of_float_floor (q : Qc) : (0 ≤ q)%Qc → int_of_float q = Qfloor q.
Proof.
  intros Hq. rewrite int_of_float_truncate. unfold truncate.
  by destruct (decide _).
Qed.

Lemma truediv_by_int (a : number) (c : Z) :
  c ≠ 0 → truediv a (PyInt c) = Ok (to_float a / Qc_of_Z c)%Qc.
Proof. intros Hc. unfold truediv; simpl. by case_bool_decide. Qed.

Lemma Qc_of_Z_pos (c : Z) : 0 < c → (0 < Qc_of_Z c)%Qc.
Proof.
  intros Hc. pose proof (proj1 (Z2Qc_inj_lt 0 c) Hc) as H.
  by rewrite Z2Qc_inj_0 in H.
Qed.

Lemma Qc_of_Z_neq_0 (c : Z) : c ≠ 0 → Qc_of_Z c ≠ 0%Qc.
Proof. intros Hc E. rewrite <- Z2Qc_inj_0 in E. by apply Z2Qc_inj in E. Qed.

Lemma Qc_div_nonneg (q : Qc) (c : Z) : (0 ≤ q)%Qc → 0 < c → (0 ≤ q / Qc_of_Z c)%Qc.
Proof.
  intros Hq Hc. unfold Qcdiv. apply Qcmult_nonneg_nonneg; [done|].
  apply Qclt_le_weak, Qcinv_pos, Qc_of_Z_pos, Hc.
Qed.

Lemma Qfloor_nonneg (q : Qc) : (0 ≤ q)%Qc → 0 ≤ Qfloor q.
Proof. intros Hq. change 0 with (Qfloor 0). by apply Qfloor_resp_le. Qed.

(** Below one cell there is no whole cell. *)
Lemma Qfloor_div_small (q : Qc) (c : Z) :
  (0 ≤ q)%Qc → (q < Qc_of_Z c)%Qc → Qfloor (q / Qc_of_Z c)%Qc = 0.
Proof.
  intros Hq Hlt.
  assert (Hc : (0 < Qc_of_Z c)%Qc) by (by eapply Qcle_lt_trans).
  assert (Hne : Qc_of_Z c ≠ 0%Qc).
  { intros E. rewrite E in Hc. by apply Qclt_not_eq in Hc. }
  assert (H0 : (0 ≤ q / Qc_of_Z c)%Qc).
  { unfold Qcdiv. apply Qcmult_nonneg_nonneg; [done|].
    by apply Qclt_le_weak, Qcinv_pos. }
  assert (H1 : (q / Qc_of_Z c < 1)%Qc).
  { apply (Qcmult_lt_mono_pos_r _ _ (Qc_of_Z c)); [done|].
    replace (q / Qc_of_Z c * Qc_of_Z c)%Qc with q by (by field).
    by rewrite Qcmult_1_l. }
  pose proof (Qfloor_nonneg _ H0) as Hlo.
  pose proof (Qfloor_le (q / Qc_of_Z c)%Qc) as Hle.
  assert (Hhi : Qfloor (q / Qc_of_Z c)%Qc < 1).
  { rewrite Zlt_Qlt. eapply Qle_lt_trans; [exact Hle|]. exact H1. }
  lia.
Qed.
End numbers.

(** ** The action grid *)

Section grid.
Context {Page : Type} `{!Driver Page}.
Implicit Types (self : WebEnv Page) (v : Rect.t).

Lemma list_bind_flat_map {A B} (f : A → list B) (l : list A) :
  list_bind _ _ f l = flat_map f l.
Proof. induction l as [|a l IH]; [done|]. simpl. by rewrite <- IH. Qed.

Lemma list_bind_singleton_map {A B} (f : A → B) (l : list A) :
  list_bind _ _ (λ a, [f a]) l = map f l.
Proof. induction l as [|a l IH]; [done|]. simpl. by rewrite <- IH. Qed.

Lemma length_flat_map_const {A B} (f : A → list B) (n : nat) (l : list A) :
  (∀ a, length (f a) = n) → length (flat_map f l) = (length l * n)%nat.
Proof.
  intros Hf. induction l as [|a l IH]; [done|].
  simpl. by rewrite length_app, Hf, IH.
Qed.

(** Row-major order: item [i * cols + j] is the cell of row [i], column [j]. *)
Lemma lookup_grid {A} (f : Z → Z → A) (cols : Z) (i : nat) (j : Z) (start rows : Z) :
  Z.of_nat i < rows → 0 ≤ j < cols →
  flat_map (λ row, map (f row) (seqZ 1 cols)) (seqZ start rows)
    !! Z.to_nat (Z.of_nat i * cols + j)
  = Some (f (start + Z.of_nat i) (1 + j)).
Proof.
  revert start rows. induction i as [|i IH]; intros start rows Hi Hj.
  - rewrite (seqZ_cons start rows) by lia. cbn [flat_map].
    rewrite lookup_app_l by (rewrite length_map, length_seqZ; lia).
    change (map (f start)) with (fmap (M:=list) (f start)).
    rewrite list_lookup_fmap, lookup_seqZ_lt by lia.
    simpl. do 2 f_equal; lia.
  - rewrite (seqZ_cons start rows) by lia. cbn [flat_map].
    rewrite lookup_app_r by (rewrite length_map, length_seqZ; nia).
    rewrite length_map, length_seqZ.
    replace (Z.to_nat (Z.of_nat (S i) * cols + j) - Z.to_nat cols)%nat
      with (Z.to_nat (Z.of_nat i * cols + j)) by nia.
    rewrite IH by lia. do 2 f_equal; lia.
Qed.

Lemma _actions_frame self : (_actions self).2 = self.
Proof.
  unfold _actions, mbind, M_bind, attr, gets, lift, mret, M_ret.
  destruct (viewport self) as [v|]; [|done].
  destruct (int_of_float <$> truediv (Rect.width v) _); [|done].
  destruct (int_of_float <$> truediv (Rect.height v) _); [|done].
  by destruct (truediv (PyInt _) _).
Qed.

Lemma _actions_depends self self' :
  viewport self = viewport self' → CELL_SIZE self = CELL_SIZE self' →
  (_actions self).1 = (_actions self').1.
Proof.
  intros Hv Hc.
  unfold _actions, mbind, M_bind, attr, gets, lift, mret, M_ret.
  rewrite <- Hv. destruct (viewport self) as [v|]; [|done].
  cbn beta iota. rewrite <- Hc.
  destruct (int_of_float <$> truediv (Rect.width v) _); [|done].
  destruct (int_of_float <$> truediv (Rect.height v) _); [|done].
  by destruct (truediv (PyInt _) _).
Qed.

Lemma cell_center_int (k c : Z) :
  int (sub (mul (PyInt k) (PyInt c)) (PyFloat (Qc_of_Z c / Qc_of_Z 2)%Qc))
  = cell_center k c.
Proof.
  unfold cell_center. simpl. by rewrite int_of_float_truncate, Z2Qc_inj_mul.
Qed.

Lemma _actions_grid self v :
  viewport self = Some v →
  (0 ≤ to_float (Rect.width v))%Qc → (0 ≤ to_float (Rect.height v))%Qc →
  0 < CELL_SIZE self →
  _actions self = (Ok (generateActions v (CELL_SIZE self)), self).
Proof.
  intros Hv Hw Hh Hc.
  unfold _actions, mbind, M_bind, attr, gets, lift, mret, M_ret. rewrite Hv.
  rewrite !truediv_by_int by lia. cbn [fmap result_fmap fst snd]. cbn beta iota.
  rewrite !int_of_float_floor by (by apply Qc_div_nonneg). cbn [to_float].
  do 2 f_equal. unfold generateActions, range.
  rewrite list_bind_flat_map.
  replace (Qfloor (to_float (Rect.height v) / Qc_of_Z (CELL_SIZE self))%Qc + 1 - 1)
    with (Qfloor (to_float (Rect.height v) / Qc_of_Z (CELL_SIZE self))%Qc) by lia.
  replace (Qfloor (to_float (Rect.width v) / Qc_of_Z (CELL_SIZE self))%Qc + 1 - 1)
    with (Qfloor (to_float (Rect.width v) / Qc_of_Z (CELL_SIZE self))%Qc) by lia.
  apply flat_map_ext. intros row.
  rewrite list_bind_singleton_map. apply map_ext. intros col.
  by rewrite !cell_center_int.
Qed.
End grid.

(** C1. For a viewport of width w >= 0 and height h >= 0 and a cell size
    c > 0, [_actions] returns floor(w/c) * floor(h/c) actions in row-major
    order, rows outer: the action of cell (col, row), counted from 1, is a
    click at x = col*c - c/2 and y = row*c - c/2 truncated to integers.  The
    list is empty when w < c or h < c. *)
Theorem actions_cell_grid {Page : Type} `{!Driver Page} (self : WebEnv Page) (v : Rect.t) :
  viewport self = Some v →
  (0 ≤ to_float (Rect.width v))%Qc →
  (0 ≤ to_float (Rect.height v))%Qc →
  0 < CELL_SIZE self →
  let c := CELL_SIZE self in
  let cols := Qfloor (to_float (Rect.width v) / Qc_of_Z c)%Qc in
  let rows := Qfloor (to_float (Rect.height v) / Qc_of_Z c)%Qc in
  ∃ actions : list Action.t,
    _actions self = (Ok actions, self)
    ∧ Z.of_nat (length actions) = cols * rows
    ∧ (∀ row col, 1 ≤ row ≤ rows → 1 ≤ col ≤ cols →
         actions !! Z.to_nat ((row - 1) * cols + (col - 1))
         = Some (Action.mk (cell_center col c) (cell_center row c) "click"))
    ∧ ((to_float (Rect.width v) < Qc_of_Z c)%Qc
       ∨ (to_float (Rect.height v) < Qc_of_Z c)%Qc → actions = []).
Proof.
  intros Hv Hw Hh Hc c cols rows.
  exists (generateActions v c). split; [by apply _actions_grid|].
  assert (Hcols : 0 ≤ cols) by (by apply Qfloor_nonneg, Qc_div_nonneg).
  assert (Hrows : 0 ≤ rows) by (by apply Qfloor_nonneg, Qc_div_nonneg).
  unfold generateActions. fold c cols rows. split; [|split].
  - rewrite (length_flat_map_const _ (Z.to_nat cols)).
    + rewrite length_seqZ. nia.
    + intros row. by rewrite length_map, length_seqZ.
  - intros row col Hrow Hcol.
    replace (row - 1) with (Z.of_nat (Z.to_nat (row - 1))) by lia.
    rewrite (lookup_grid (λ r k, Action.mk (cell_center k c) (cell_center r c) "click"))
      by lia.
    do 3 f_equal; lia.
  - intros [Hsmall|Hsmall].
    + replace cols with 0 by (symmetry; by apply Qfloor_div_small).
      rewrite (seqZ_nil 1 0) by lia. simpl. by induction (seqZ 1 rows).
    + replace rows with 0 by (symmetry; by apply Qfloor_div_small).
      by rewrite (seqZ_nil 1 0) by lia.
Qed.

Lemma actions_cell_grid_witness :
  ∃ actions : list Action.t,
    _actions demo_env_100 = (Ok actions, demo_env_100)
    ∧ Z.of_nat (length actions) = 5 * 5
    ∧ (∀ row col, 1 ≤ row ≤ 5 → 1 ≤ col ≤ 5 →
         actions !! Z.to_nat ((row - 1) * 5 + (col - 1))
         = Some (Action.mk (cell_center col 20) (cell_center row 20) "click")).
Proof.
  assert (Hw : (0 ≤ to_float (Rect.width viewport_100))%Qc) by (by compute).
  assert (Hh : (0 ≤ to_float (Rect.height viewport_100))%Qc) by (by compute).
  assert (Hc : 0 < CELL_SIZE demo_env_100) by (simpl; lia).
  destruct (actions_cell_grid demo_env_100 viewport_100 eq_refl Hw Hh Hc)
    as (actions & Hrun & Hlen & Hat & _).
  exists actions. split; [exact Hrun|]. split; [exact Hlen|exact Hat].
Defined.

(** The grid of the specification's example: 25 actions, with centers 10, 30,
    50, 70, 90 along each axis. *)
Example _actions_100 :
  (_actions demo_env_100).1
  = Ok (row ← [10; 30; 50; 70; 90]; col ← [10; 30; 50; 70; 90]; [click_at col row]).
Proof. vm_compute. reflexivity. Qed.

(** ** The screenshot crop *)

Section crop.
Context {Page : Type} `{!Driver Page}.
Implicit Types (self : WebEnv Page) (v : Rect.t) (img : ndarray).

Lemma slice_bound_range (i len : Z) : 0 ≤ len → 0 ≤ slice_bound i len ≤ len.
Proof. intros Hlen. unfold slice_bound. case_bool_decide; lia. Qed.

Lemma slice_bound_nonneg (i len : Z) :
  0 ≤ i → 0 ≤ len → slice_bound i len = Z.min i len.
Proof. intros Hi Hlen. unfold slice_bound. case_bool_decide; lia. Qed.

Lemma length_slice {A} (start stop : Z) (l : list A) :
  Z.of_nat (length (slice start stop l))
  = (slice_indices start stop (Z.of_nat (length l))).2.
Proof.
  unfold slice, slice_indices. simpl.
  pose proof (slice_bound_range start (Z.of_nat (length l)) ltac:(lia)).
  pose proof (slice_bound_range stop (Z.of_nat (length l)) ltac:(lia)).
  rewrite length_take, length_drop. lia.
Qed.

Lemma Forall_slice {A} (P : A → Prop) (start stop : Z) (l : list A) :
  Forall P l → Forall P (slice start stop l).
Proof. intros Hl. unfold slice, slice_indices. by apply Forall_take, Forall_drop. Qed.

Lemma getitem_int img (r0 r1 c0 c1 : Z) :
  getitem img (PyInt r0) (PyInt r1) (PyInt c0) (PyInt c1)
  = Ok {| nd_height := (slice_indices r0 r1 (nd_height img)).2;
          nd_width := (slice_indices c0 c1 (nd_width img)).2;
          nd_rows := slice c0 c1 <$> slice r0 r1 (nd_rows img) |}.
Proof. reflexivity. Qed.

Lemma getitem_float img (r0 r1 c0 c1 : number) :
  ¬ (is_int r0 ∧ is_int r1 ∧ is_int c0 ∧ is_int c1) →
  getitem img r0 r1 c0 c1 = Raise TypeError.
Proof.
  intros Hf. destruct r0, r1, c0, c1; simpl in *; try done. by destruct Hf.
Qed.

Lemma getitem_ok img (r0 r1 c0 c1 : number) :
  is_ok (getitem img r0 r1 c0 c1) → is_int r0 ∧ is_int r1 ∧ is_int c0 ∧ is_int c1.
Proof. destruct r0, r1, c0, c1; simpl; done. Qed.

Lemma getitem_well_shaped img (r0 r1 c0 c1 : Z) crop :
  well_shaped img →
  getitem img (PyInt r0) (PyInt r1) (PyInt c0) (PyInt c1) = Ok crop →
  well_shaped crop.
Proof.
  intros (Hh & Hrows & Hw) Hcrop. rewrite getitem_int in Hcrop.
  injection Hcrop as <-. unfold well_shaped; simpl. split; [|split].
  - by rewrite length_fmap, length_slice, Hh.
  - apply Forall_fmap, Forall_slice. eapply Forall_impl; [exact Hrows|].
    intros row Hrow. simpl. by rewrite length_slice, Hrow.
  - lia.
Qed.

Lemma _screenshot_eval self p v :
  page self = Some p → viewport self = Some v →
  _screenshot self
  = (img ← screenshot p;
     getitem img (Rect.y v) (add (Rect.y v) (Rect.height v))
                 (Rect.x v) (add (Rect.x v) (Rect.width v)),
     self).
Proof.
  intros Hp Hv.
  unfold _screenshot, _run_query, mbind, M_bind, result_bind, attr, lift.
  rewrite Hp. destruct (screenshot p) as [img|e]; [|done]. by rewrite Hv.
Qed.

Lemma _state_screenshot_raises self e :
  (_screenshot self).1 = Raise e → (_state self).1 = Raise e.
Proof.
  intros He. unfold _state, mbind, M_bind.
  destruct (_screenshot self) as [[img|e'] self']; simpl in *; [done|].
  by injection He as ->.
Qed.

Lemma integral_is_int (a : number) : is_int a → integral a.
Proof. destruct a as [n|f]; [|done]. intros _. by exists n. Qed.

Lemma add_is_int (a b : number) : is_int (add a b) → is_int a ∧ is_int b.
Proof. by destruct a, b. Qed.
End crop.

(** C5, as stated, fails: on the demo page the content root "html" is 100
    pixels high while the screenshot has 60 rows; the crop made by [reset]
    does not fail, and its dimensions are (60, 80), not (100, 80). *)
Lemma screenshot_clips_counterexample :
  let self := (reset (demo_env None)).2 in
  viewport self = Some (Rect.mk (PyInt 0) (PyInt 0) (PyInt 80) (PyInt 100))
  ∧ shape demo_screenshot = (60, 80)
  ∧ ∃ crop : ndarray,
      (_screenshot self).1 = Ok crop ∧ shape crop = (60, 80) ∧ shape crop ≠ (100, 80).
Proof.
  split; [by vm_compute|]. split; [reflexivity|].
  eexists. split; [vm_compute; reflexivity|]. split; [reflexivity|]. discriminate.
Qed.

(** C5, amended.  For a screenshot of shape (H, W) and a stored viewport with
    integer x, y, width, height >= 0, the crop succeeds and its dimensions
    are (min(y+height, H) - min(y, H), min(x+width, W) - min(x, W)); they
    are exactly (height, width) when the viewport lies within the
    screenshot.  A viewport that exceeds the screenshot is clipped to it. *)
Theorem screenshot_crop_dimensions {Page : Type} `{!Driver Page}
    (self : WebEnv Page) (p : Page) (img : ndarray) (x y w h : Z) :
  page self = Some p →
  screenshot p = Ok img →
  well_shaped img →
  viewport self = Some (Rect.mk (PyInt x) (PyInt y) (PyInt w) (PyInt h)) →
  0 ≤ x → 0 ≤ y → 0 ≤ w → 0 ≤ h →
  ∃ crop : ndarray,
    _screenshot self = (Ok crop, self)
    ∧ well_shaped crop
    ∧ shape crop = (Z.min (y + h) (nd_height img) - Z.min y (nd_height img),
                    Z.min (x + w) (nd_width img) - Z.min x (nd_width img))
    ∧ (y + h ≤ nd_height img → x + w ≤ nd_width img → shape crop = (h, w)).
Proof.
  intros Hp Himg Hws Hv Hx Hy Hw Hh.
  rewrite (_screenshot_eval self p _ Hp Hv), Himg. cbn [Rect.x Rect.y Rect.width Rect.height add].
  change (Ok img ≫= _) with
    (getitem img (PyInt y) (PyInt (y + h)) (PyInt x) (PyInt (x + w))).
  eexists. split; [by rewrite getitem_int|].
  split; [by apply (getitem_well_shaped img y (y + h) x (x + w))|].
  destruct Hws as (HH & _ & HW).
  assert (0 ≤ nd_height img) by lia.
  unfold shape, slice_indices; simpl.
  rewrite !slice_bound_nonneg by lia.
  split; [f_equal; lia|]. intros Hfit1 Hfit2. f_equal; lia.
Qed.

Lemma screenshot_crop_dimensions_witness :
  let self := (reset (demo_env (Some "#go"))).2 in
  ∃ crop : ndarray,
    _screenshot self = (Ok crop, self)
    ∧ well_shaped crop
    ∧ shape crop = (Z.min (8 + 20) 60 - Z.min 8 60, Z.min (8 + 40) 80 - Z.min 8 80)
    ∧ (8 + 20 ≤ 60 → 8 + 40 ≤ 80 → shape crop = (20, 40)).
Proof.
  assert (Hws : well_shaped demo_screenshot).
  { split; [reflexivity|]. split; [|simpl; lia].
    apply Forall_forall. intros row Hrow%elem_of_replicate.
    destruct Hrow as [-> _]. reflexivity. }
  apply (screenshot_crop_dimensions (reset (demo_env (Some "#go"))).2
           {| loaded := true; go_hits := 0 |} demo_screenshot 8 8 40 20);
    [by vm_compute|reflexivity|exact Hws|by vm_compute|lia..].
Defined.

(** C10.  [_screenshot], and with it the construction of the [State], uses
    the viewport's x, y, width and height as slice bounds: it succeeds only
    when all four are integers, and whenever one of them is not an integer in
    value it raises TypeError; nothing is rounded. *)
Theorem fractional_viewport_raises {Page : Type} `{!Driver Page}
    (self : WebEnv Page) (p : Page) (img : ndarray) (v : Rect.t) :
  page self = Some p →
  screenshot p = Ok img →
  viewport self = Some v →
  (is_ok (_screenshot self).1 →
     integral (Rect.x v) ∧ integral (Rect.y v)
     ∧ integral (Rect.width v) ∧ integral (Rect.height v))
  ∧ (¬ (integral (Rect.x v) ∧ integral (Rect.y v)
        ∧ integral (Rect.width v) ∧ integral (Rect.height v)) →
     (_screenshot self).1 = Raise TypeError ∧ (_state self).1 = Raise TypeError).
Proof.
  intros Hp Himg Hv.
  rewrite (_screenshot_eval self p v Hp Hv), Himg. simpl.
  change (Ok img ≫= _) with
    (getitem img (Rect.y v) (add (Rect.y v) (Rect.height v))
                 (Rect.x v) (add (Rect.x v) (Rect.width v))).
  assert (Hint : is_int (Rect.y v) ∧ is_int (add (Rect.y v) (Rect.height v))
                 ∧ is_int (Rect.x v) ∧ is_int (add (Rect.x v) (Rect.width v))
                 → integral (Rect.x v) ∧ integral (Rect.y v)
                   ∧ integral (Rect.width v) ∧ integral (Rect.height v)).
  { intros (Hy & [_ Hh]%add_is_int & Hx & [_ Hw]%add_is_int).
    auto using integral_is_int. }
  split.
  - intros Hok. by apply Hint, (getitem_ok img).
  - intros Hfrac.
    assert (Hraise : getitem img (Rect.y v) (add (Rect.y v) (Rect.height v))
                       (Rect.x v) (add (Rect.x v) (Rect.width v)) = Raise TypeError).
    { apply getitem_float. intros H. by apply Hfrac, Hint. }
    split; [done|]. apply _state_screenshot_raises.
    by rewrite (_screenshot_eval self p v Hp Hv), Himg.
Qed.

Lemma fractional_viewport_raises_witness :
  let self := (reset (demo_env (Some "p"))).2 in
  viewport self
  = Some (Rect.mk (PyInt 8) (PyFloat (Q2Qc (73 # 2))) (PyInt 64) (PyFloat (Q2Qc (35 # 2))))
  ∧ (_screenshot self).1 = Raise TypeError
  ∧ (_state self).1 = Raise TypeError.
Proof.
  split; [by vm_compute|].
  refine (proj2 (fractional_viewport_raises (reset (demo_env (Some "p"))).2
                   {| loaded := true; go_hits := 0 |} demo_screenshot
                   (Rect.mk (PyInt 8) (PyFloat (Q2Qc (73 # 2))) (PyInt 64)
                            (PyFloat (Q2Qc (35 # 2)))) _ _ _) _);
    [by vm_compute|reflexivity|by vm_compute|].
  intros (_ & [n Hn] & _). simpl in Hn.
  apply (f_equal this) in Hn. vm_compute in Hn. discriminate Hn.
Defined.

(** ** The selector builder *)

Section selector.
Implicit Types (e : element) (t : tree) (c : list frame) (names : list string).

Lemma count_siblings_length t (f : frame) c (n : nat) :
  count_siblings (length (f_left f)) n {| focus := t; ctx := f :: c |}
  = (n + length (f_left f))%nat.
Proof.
  destruct f as [tn ln i before after]. simpl.
  revert t after n. induction before as [|b before IH]; intros t after n; simpl.
  - lia.
  - unfold previousElementSibling; simpl. rewrite IH. lia.
Qed.

(** The loop visits the element and its ancestors up to the first id; any
    fuel above the depth of the element gives the same list. *)
Lemma fullPath_loop_segments (fuel : nat) t c names :
  (length c < fuel)%nat →
  fullPath_loop fuel (Element {| focus := t; ctx := c |}) names
  = reverse (segment <$> upto_id (ancestors_from t c)) ++ names.
Proof.
  revert fuel t names. induction c as [|f up IH]; intros fuel t names Hfuel;
    (destruct fuel as [|fuel]; [simpl in Hfuel; lia|]);
    destruct t as [tn ln i kids];
    cbn [fullPath_loop parentNode ctx focus ancestors_from upto_id id tagName];
    destruct (truthy i) eqn:Hi.
  - unfold segment. cbn. by rewrite Hi.
  - unfold segment. cbn. rewrite Hi. by destruct fuel.
  - unfold segment. cbn. by rewrite Hi.
  - cbn [is_documentElement ctx]. unfold left_siblings at 1; cbn [ctx].
    rewrite count_siblings_length, IH by (simpl in Hfuel; lia).
    rewrite fmap_cons, reverse_cons, <- app_assoc. do 2 f_equal.
    unfold segment. cbn. by rewrite Hi.
Qed.

Lemma fullPath_buildSelector e : fullPath e = buildSelector e.
Proof.
  destruct e as [t c]. unfold fullPath, buildSelector, ancestors; simpl ctx.
  rewrite fullPath_loop_segments by lia. by rewrite app_nil_r.
Qed.
End selector.

(** C6.  [fullPath] walks from the element toward the document element and
    prepends one segment per element visited, joined with " > ": it stops at
    the first element (the element itself or an ancestor) with a non-empty id
    and prepends '#id' for it; before that, an element other than the document
    element contributes its lowercase tag name followed by ':nth-child(c)',
    c being one plus the number of preceding element siblings, and the
    document element contributes its lowercase tag name.  An element with a
    non-empty id has the selector '#id' alone. *)
Theorem fullPath_walk (el : element) :
  fullPath el = String.concat " > " (reverse (segment <$> upto_id (ancestors el)))
  ∧ (id el ≠ "" → fullPath el = "#" +:+ id el)
  ∧ (∀ a, last (upto_id (ancestors el)) = Some a → id a ≠ "" →
       ∃ below, fullPath el = String.concat " > " (("#" +:+ id a) :: below)).
Proof.
  split; [apply fullPath_buildSelector|]. split.
  - intros Hid. rewrite fullPath_buildSelector. unfold buildSelector, ancestors.
    destruct el as [t [|f up]]; unfold id in *; simpl in *;
      destruct t as [tn ln i kids]; simpl in *;
      destruct i; [done| |done|]; unfold segment, id; simpl; done.
  - intros a Hlast Hid. rewrite fullPath_buildSelector. unfold buildSelector.
    destruct (upto_id (ancestors el)) as [|e l] using rev_ind; [done|].
    rewrite last_snoc in Hlast. injection Hlast as ->.
    assert (Hseg : segment a = "#" +:+ id a).
    { unfold segment. by destruct (id a). }
    exists (reverse (segment <$> l)).
    rewrite fmap_app, reverse_app. change (segment <$> [a]) with [segment a].
    rewrite Hseg. reflexivity.
Qed.

Lemma fullPath_walk_witness :
  id foo_element ≠ "" ∧ fullPath foo_element = "#foo".
Proof.
  assert (Hid : id foo_element ≠ "") by discriminate.
  split; [exact Hid|].
  exact (proj1 (proj2 (fullPath_walk foo_element)) Hid).
Defined.

(** The selectors of the specification's example and of its child. *)
Example fullPath_foo_child :
  (fullPath <$> querySelectorAll_star foo_element) = ["#foo > span:nth-child(1)"].
Proof. reflexivity. Qed.

Example fullPath_without_id :
  (fullPath <$> querySelectorAll_star demo_html)
  = ["html > body:nth-child(1)"; "#go"; "html > body:nth-child(1) > p:nth-child(2)"].
Proof. reflexivity. Qed.

(** ** The environment *)

Section env.
Context {Page : Type} `{!Driver Page}.
Implicit Types (self : WebEnv Page).

Lemma bind_ok_inv {A B} (m : M Page A) (k : A → M Page B) self b self'' :
  (m ≫= k) self = (Ok b, self'') →
  ∃ a self', m self = (Ok a, self') ∧ k a self' = (Ok b, self'').
Proof.
  unfold mbind, M_bind. destruct (m self) as [[a|e] self']; [|done].
  intros Hk. by exists a, self'.
Qed.

Lemma attr_ok_inv {A} (f : WebEnv Page → option A) self a self' :
  attr f self = (Ok a, self') → f self = Some a ∧ self' = self.
Proof. unfold attr. destruct (f self); [|done]. by intros [= -> ->]. Qed.

Lemma lift_ok_inv {A} (r : result A) self a self' :
  lift r self = (Ok a, self') → r = Ok a ∧ self' = self.
Proof. unfold lift. by intros [= -> ->]. Qed.

Lemma run_cmd_ok_inv (cmd : Page → result Page) self u self' :
  _run_cmd cmd self = (Ok u, self') →
  ∃ p p', page self = Some p ∧ cmd p = Ok p' ∧ self' = set_page p' self.
Proof.
  unfold _run_cmd. intros (p & s1 & [Hp ->]%attr_ok_inv & H1)%bind_ok_inv.
  apply bind_ok_inv in H1 as (p' & s2 & [Hcmd ->]%lift_ok_inv & H2).
  unfold assign in H2. injection H2 as _ <-. by exists p, p'.
Qed.

Lemma coverage_ok_inv self c self' :
  _coverage self = (Ok c, self') →
  ∃ p m, page self = Some p ∧ window_coverage p = Ok m
         ∧ summary {| coverage_data := m |} = Ok c ∧ self' = self.
Proof.
  unfold _coverage, _run_query.
  intros (m & s1 & H1 & [Hs ->]%lift_ok_inv)%bind_ok_inv.
  apply bind_ok_inv in H1 as (p & s2 & [Hp ->]%attr_ok_inv & [Hm ->]%lift_ok_inv).
  by exists p, m.
Qed.

(** *** Frame conditions *)

Lemma same_session_refl self : same_session self self.
Proof. by unfold same_session. Qed.

Lemma same_session_trans self1 self2 self3 :
  same_session self1 self2 → same_session self2 self3 → same_session self1 self3.
Proof. unfold same_session. intros (?&?&?&?&?) (?&?&?&?&?). repeat split; congruence. Qed.

Lemma keeps_bind {A B} (m : M Page A) (k : A → M Page B) :
  keeps_session m → (∀ a, keeps_session (k a)) → keeps_session (m ≫= k).
Proof.
  intros Hm Hk self. unfold mbind, M_bind. specialize (Hm self).
  destruct (m self) as [[a|e] self']; [|done].
  eapply same_session_trans; [exact Hm|apply Hk].
Qed.

Lemma keeps_ret {A} (a : A) : keeps_session (mret a : M Page A).
Proof. intros self. apply same_session_refl. Qed.

Lemma keeps_lift {A} (r : result A) : keeps_session (lift r : M Page A).
Proof. intros self. apply same_session_refl. Qed.

Lemma keeps_gets {A} (f : WebEnv Page → A) : keeps_session (gets f).
Proof. intros self. apply same_session_refl. Qed.

Lemma keeps_attr {A} (f : WebEnv Page → option A) : keeps_session (attr f).
Proof. intros self. unfold attr. destruct (f self); apply same_session_refl. Qed.

Lemma keeps_set_page (p : Page) : keeps_session (assign (set_page p)).
Proof. by intros self. Qed.

Lemma keeps_set_coverage c : keeps_session (Page:=Page) (assign (set_coverage c)).
Proof. by intros self. Qed.

Lemma keeps__run_cmd (cmd : Page → result Page) : keeps_session (_run_cmd cmd).
Proof.
  unfold _run_cmd. apply keeps_bind; [apply keeps_attr|]. intros p.
  apply keeps_bind; [apply keeps_lift|]. intros p'. apply keeps_set_page.
Qed.

Lemma keeps__actions : keeps_session (Page:=Page) _actions.
Proof. intros self. rewrite _actions_frame. apply same_session_refl. Qed.

Ltac keeps_prim :=
  first [ apply keeps_attr | apply keeps_gets | apply keeps_lift | apply keeps_ret
        | apply keeps_set_page | apply keeps_set_coverage ].

Lemma keeps__coverage : keeps_session (Page:=Page) _coverage.
Proof.
  unfold _coverage, _run_query.
  repeat first [keeps_prim | apply keeps_bind; [|intros ?]].
Qed.

Lemma keeps__state : keeps_session (Page:=Page) _state.
Proof.
  unfold _state, _screenshot, _elements, _run_query.
  repeat first [keeps_prim | apply keeps_bind; [|intros ?]].
  destruct (querySelector _ _); keeps_prim.
Qed.

Lemma keeps_step action : keeps_session (step action).
Proof.
  unfold step.
  repeat first [ apply keeps__run_cmd | apply keeps__coverage | apply keeps__state
               | apply keeps__actions | keeps_prim
               | apply keeps_bind; [|intros ?] | progress cbv zeta ].
Qed.

Lemma reads_bind {A B} (m : M Page A) (k : A → M Page B) :
  reads_only m → (∀ a, reads_only (k a)) → reads_only (m ≫= k).
Proof.
  intros Hm Hk self. unfold mbind, M_bind. specialize (Hm self).
  destruct (m self) as [[a|e] self']; simpl in Hm; subst self'; [apply Hk|done].
Qed.

Lemma reads_ret {A} (a : A) : reads_only (mret a : M Page A).
Proof. by intros self. Qed.

Lemma reads_lift {A} (r : result A) : reads_only (lift r : M Page A).
Proof. by intros self. Qed.

Lemma reads_gets {A} (f : WebEnv Page → A) : reads_only (gets f).
Proof. by intros self. Qed.

Lemma reads_attr {A} (f : WebEnv Page → option A) : reads_only (attr f).
Proof. intros self. unfold attr. by destruct (f self). Qed.

Ltac reads_prim :=
  first [ apply reads_attr | apply reads_gets | apply reads_lift | apply reads_ret ].

Lemma reads__state : reads_only (Page:=Page) _state.
Proof.
  unfold _state, _screenshot, _elements, _run_query.
  repeat first [reads_prim | apply reads_bind; [|intros ?]].
  destruct (querySelector _ _); reads_prim.
Qed.

Lemma reads__actions : reads_only (Page:=Page) _actions.
Proof. intros self. apply _actions_frame. Qed.

Lemma after_steps_same_session self self' :
  after_steps self self' → same_session self self'.
Proof.
  induction 1 as [|self' action _ IH]; [apply same_session_refl|].
  eapply same_session_trans; [exact IH|apply keeps_step].
Qed.

(** What a returning [step] did, call by call. *)
Lemma step_ok_inv action self st acts r self' :
  step action self = (Ok (st, acts, r), self') →
  ∃ p v p' old m new,
    page self = Some p ∧ viewport self = Some v
    ∧ mouse_click (add (Rect.x v) (PyInt (Action.x action)))
                  (add (Rect.y v) (PyInt (Action.y action))) p = Ok p'
    ∧ coverage self = Some old
    ∧ window_coverage p' = Ok m
    ∧ summary {| coverage_data := m |} = Ok new
    ∧ r = (new - old)%Qc
    ∧ self' = set_coverage new (set_page p' self)
    ∧ (_actions self').1 = Ok acts.
Proof.
  unfold step. intros H.
  apply bind_ok_inv in H as (p0 & s0 & [Hp0 ->]%attr_ok_inv & H).
  apply bind_ok_inv in H as (v & s0 & [Hv ->]%attr_ok_inv & H).
  apply bind_ok_inv in H as (u & s1 & (p & p' & Hp & Hclick & Hs1)%run_cmd_ok_inv & H).
  subst s1.
  apply bind_ok_inv in H as (old & s0 & [Hold ->]%attr_ok_inv & H).
  apply bind_ok_inv in H as (new & s0 & (p1 & m & Hp1 & Hm & Hnew & Hs0)%coverage_ok_inv & H).
  subst s0.
  cbv zeta in H.
  apply bind_ok_inv in H as (u' & s2 & Hassign & H).
  unfold assign in Hassign. injection Hassign as _ <-.
  apply bind_ok_inv in H as (st' & s3 & Hst & H).
  pose proof (reads__state (set_coverage new (set_page p' self))) as Hs3.
  rewrite Hst in Hs3. simpl in Hs3. subst s3.
  apply bind_ok_inv in H as (acts' & s4 & Hacts & H).
  pose proof (reads__actions (set_coverage new (set_page p' self))) as Hs4.
  rewrite Hacts in Hs4. simpl in Hs4. subst s4.
  unfold mret, M_ret in H. injection H as <- <- <- <-.
  simpl in Hp1. injection Hp1 as <-.
  exists p, v, p', old, m, new. by rewrite Hacts.
Qed.

Lemma reset_ok_inv self st acts self' :
  reset self = (Ok (st, acts), self') →
  is_Some (page self') ∧ is_Some (viewport self')
  ∧ (∃ m c, coverage self' = Some c ∧ summary {| coverage_data := m |} = Ok c)
  ∧ (_actions self').1 = Ok acts.
Proof.
  unfold reset. intros H.
  apply bind_ok_inv in H as (h & s0 & Hh & H). injection Hh as <- <-.
  apply bind_ok_inv in H as (p & s0 & [Hnew ->]%lift_ok_inv & H).
  apply bind_ok_inv in H as (u & s0 & Hassign & H).
  unfold assign in Hassign. injection Hassign as _ <-.
  apply bind_ok_inv in H as (url & s0 & Hurl & H). injection Hurl as _ <-.
  apply bind_ok_inv in H as (u' & s1 & (p1 & p' & Hp1 & Hgoto & Hs1)%run_cmd_ok_inv & H).
  subst s1.
  apply bind_ok_inv in H as (v & s2 & Hview & H).
  assert (s2 = set_page p' (set_page p self)) as ->.
  { unfold _viewport, mbind, M_bind, gets, attr in Hview. simpl in Hview.
    destruct (querySelector _ _); unfold lift, mret, M_ret in Hview;
      by injection Hview as _ <-. }
  apply bind_ok_inv in H as (u2 & s0 & Hassign & H).
  unfold assign in Hassign. injection Hassign as _ <-.
  apply bind_ok_inv in H as (c & s0 & (p2 & m & Hp2 & Hm & Hc & Hs0)%coverage_ok_inv & H).
  subst s0.
  apply bind_ok_inv in H as (u3 & s0 & Hassign & H).
  unfold assign in Hassign. injection Hassign as _ <-.
  apply bind_ok_inv in H as (st' & s3 & Hst & H).
  match type of Hst with _state ?s = _ =>
    pose proof (reads__state s) as Hs3; rewrite Hst in Hs3; simpl in Hs3; subst s3 end.
  apply bind_ok_inv in H as (acts' & s4 & Hacts & H).
  match type of Hacts with _actions ?s = _ =>
    pose proof (reads__actions s) as Hs4; rewrite Hacts in Hs4; simpl in Hs4; subst s4 end.
  unfold mret, M_ret in H. injection H as <- <- <-.
  rewrite Hacts. simpl. repeat split; eauto.
Qed.
End env.

(** C3.  A [step] that returns, from an object whose stored coverage is the
    summary of the map measured last ([before]), returns as reward exactly
    summary(after) - summary(before), where [after] is the map read after the
    click; nothing is clamped or smoothed, so the reward is zero when the two
    summaries agree and may be negative.  The stored coverage is
    summary(after) when [step] returns. *)
Theorem step_reward_is_coverage_delta {Page : Type} `{!Driver Page}
    (self : WebEnv Page) (before : gmap string file_coverage)
    (action : Action.t) (st : State.t) (acts : list Action.t) (r : float)
    (self' : WebEnv Page) :
  Ready self before →
  step action self = (Ok (st, acts, r), self') →
  ∃ (p : Page) (v : Rect.t) (p' : Page) (after : gmap string file_coverage)
    (cb ca : float),
    page self = Some p ∧ viewport self = Some v
    ∧ mouse_click (add (Rect.x v) (PyInt (Action.x action)))
                  (add (Rect.y v) (PyInt (Action.y action))) p = Ok p'
    ∧ window_coverage p' = Ok after
    ∧ summary {| coverage_data := before |} = Ok cb
    ∧ summary {| coverage_data := after |} = Ok ca
    ∧ r = (ca - cb)%Qc
    ∧ coverage self' = Some ca
    ∧ Ready self' after
    ∧ (ca = cb → r = 0%Qc).
Proof.
  intros (_ & _ & cb & Hcb & Hbefore) Hstep.
  apply step_ok_inv in Hstep
    as (p & v & p' & old & after & ca & Hp & Hv & Hclick & Hold & Hm & Hca & -> & -> & _).
  assert (old = cb) as -> by congruence.
  assert (Hready : Ready (set_coverage ca (set_page p' self)) after).
  { split; [by exists p'|]. split; [by exists v|]. by exists ca. }
  exists p, v, p', after, cb, ca. split_and!; try done.
  intros ->. apply Qcplus_opp_r.
Qed.

Lemma step_reward_is_coverage_delta_witness :
  ∃ (st : State.t) (acts : list Action.t) (after : gmap string file_coverage)
    (cb ca : float),
    step (click_at 50 10) demo_clicked
    = (Ok (st, acts, Q2Qc (-1 # 2)),
       set_coverage (Q2Qc (1 # 2))
         (set_page {| loaded := true; go_hits := 0 |} demo_clicked))
    ∧ summary {| coverage_data := demo_coverage {| loaded := true; go_hits := 1 |} |}
      = Ok cb
    ∧ summary {| coverage_data := after |} = Ok ca
    ∧ Q2Qc (-1 # 2) = (ca - cb)%Qc
    ∧ coverage (set_coverage (Q2Qc (1 # 2))
                  (set_page {| loaded := true; go_hits := 0 |} demo_clicked)) = Some ca.
Proof.
  assert (Hready : Ready demo_clicked (demo_coverage {| loaded := true; go_hits := 1 |})).
  { split; [by vm_compute; eauto|]. split; [by vm_compute; eauto|].
    exists 1%Qc. split; vm_compute; reflexivity. }
  destruct (step (click_at 50 10) demo_clicked) as [[[[st acts] r]|e] self'] eqn:Hstep;
    [|vm_compute in Hstep; discriminate].
  assert (Hr : r = Q2Qc (-1 # 2)).
  { vm_compute in Hstep. injection Hstep as _ _ <- _. reflexivity. }
  assert (Hself : self' = set_coverage (Q2Qc (1 # 2))
                            (set_page {| loaded := true; go_hits := 0 |} demo_clicked)).
  { vm_compute in Hstep. injection Hstep as _ _ _ <-. vm_compute. reflexivity. }
  subst r self'.
  destruct (step_reward_is_coverage_delta demo_clicked _ _ _ _ _ _ Hready Hstep)
    as (p & v & p' & after & cb & ca & _ & _ & _ & _ & Hcb & Hca & Hr & Hcov & _).
  exists st, acts, after, cb, ca.
  exact (conj eq_refl (conj Hcb (conj Hca (conj Hr Hcov)))).
Defined.

(** C7.  After a [reset] that returned, every [step], whatever came before
    it and whether it returns or raises, leaves the stored viewport (and the
    url, the content selector, the headless flag and the cell size) as
    [reset] left it.  A [step] that returns has assigned the stored coverage
    and nothing else (the page it holds has moved on), and the action list it
    returns is the action list that [reset] returned, item by item. *)
Theorem step_keeps_viewport_and_actions {Page : Type} `{!Driver Page}
    (self0 : WebEnv Page) (st0 : State.t) (acts0 : list Action.t)
    (self1 self : WebEnv Page) (action : Action.t) :
  reset self0 = (Ok (st0, acts0), self1) →
  after_steps self1 self →
  viewport (step action self).2 = viewport self
  ∧ viewport (step action self).2 = viewport self1
  ∧ same_session self (step action self).2
  ∧ ∀ st acts r,
      (step action self).1 = Ok (st, acts, r) →
      acts = acts0
      ∧ ∃ (p' : Page) (c : float),
          (step action self).2 = set_coverage c (set_page p' self).
Proof.
  intros Hreset Hsteps.
  pose proof (after_steps_same_session _ _ Hsteps) as (Hc & _ & _ & _ & Hv).
  pose proof (keeps_step action self) as Hkeep.
  pose proof Hkeep as (Hc' & _ & _ & _ & Hv').
  split; [done|]. split; [congruence|]. split; [done|].
  intros st acts r Hok.
  apply reset_ok_inv in Hreset as (_ & _ & _ & Hacts0).
  destruct (step action self) as [res self'] eqn:Hstep. simpl in *. subst res.
  apply step_ok_inv in Hstep
    as (_ & _ & p' & _ & _ & c & _ & _ & _ & _ & _ & _ & _ & Hself' & Hacts).
  split; [|by exists p', c].
  rewrite (_actions_depends self' self1) in Hacts by congruence.
  congruence.
Qed.

Lemma step_keeps_viewport_and_actions_witness :
  ∃ (st0 : State.t) (acts0 : list Action.t),
    reset (demo_env (Some "body")) = (Ok (st0, acts0), demo_ready)
    ∧ length acts0 = 12%nat
    ∧ viewport (step (click_at 50 10) demo_clicked).2 = viewport demo_ready
    ∧ ∀ st acts r,
        (step (click_at 50 10) demo_clicked).1 = Ok (st, acts, r) → acts = acts0.
Proof.
  destruct (reset (demo_env (Some "body"))) as [[[st0 acts0]|e] self1] eqn:Hreset;
    [|vm_compute in Hreset; discriminate].
  assert (Hself : self1 = demo_ready) by (unfold demo_ready; by rewrite Hreset).
  subst self1.
  assert (Hlen : length acts0 = 12%nat).
  { vm_compute in Hreset. injection Hreset as _ <-. reflexivity. }
  assert (Hsteps : after_steps demo_ready demo_clicked).
  { apply after_step, after_none. }
  destruct (step_keeps_viewport_and_actions _ _ _ _ _ (click_at 50 10) Hreset Hsteps)
    as (_ & Hv & _ & Hacts).
  exists st0, acts0.
  exact (conj eq_refl (conj Hlen (conj Hv (λ st acts r H, proj1 (Hacts st acts r H))))).
Defined.

(** C9.  [__init__] stores 'html' as the content-root selector when the
    argument is None or the empty string, and stores a non-empty string as it
    is; the object built from the empty string is the object built from
    None. *)
Theorem init_content_selector (Page : Type) (url : string) (headless : bool) :
  content_selector (__init__ Page url headless None) = "html"
  ∧ content_selector (__init__ Page url headless (Some "")) = "html"
  ∧ (∀ sel : string, sel ≠ "" →
       content_selector (__init__ Page url headless (Some sel)) = sel)
  ∧ __init__ Page url headless (Some "") = __init__ Page url headless None.
Proof.
  repeat split. intros sel Hsel. simpl. by destruct sel.
Qed.

Lemma init_content_selector_witness :
  content_selector (demo_env (Some "#go")) = "#go"
  ∧ demo_env (Some "") = demo_env None.
Proof.
  destruct (init_content_selector demo_page "http://localhost:3000/" true)
    as (_ & _ & Hsel & Hsame).
  split; [apply Hsel; discriminate|exact Hsame].
Defined.

(** * Further properties of the code *)

(** ** The coverage reducer, continued *)

Section coverage_more.
Implicit Types (m : gmap string file_coverage) (v : file_coverage).

Lemma sum_list_fmap_le {A} (f g : A → nat) (l : list A) :
  (∀ a, f a ≤ g a)%nat → (sum_list (f <$> l) ≤ sum_list (g <$> l))%nat.
Proof.
  intros Hfg. induction l as [|a l IH]; [done|]. csimpl.
  specialize (Hfg a). lia.
Qed.

Lemma total_not_covered_le m : (total_not_covered m ≤ total_stmts m)%nat.
Proof.
  unfold total_not_covered, total_stmts. rewrite !map_fold_sum.
  apply sum_list_fmap_le. intros v. apply map_size_filter.
Qed.

Lemma total_insert (g : file_coverage → nat) m (k : string) v :
  m !! k = None →
  map_fold (λ _ v acc, g v + acc)%nat 0%nat (<[k:=v]> m)
  = (g v + map_fold (λ _ v acc, g v + acc)%nat 0%nat m)%nat.
Proof.
  intros Hk. rewrite !map_fold_sum.
  by rewrite (map_to_list_insert m k v Hk).
Qed.

Lemma total_map_counts (g : file_coverage → nat) (f : Z → Z) m :
  (∀ v, g {| s := f <$> s v |} = g v) →
  map_fold (λ _ v acc, g v + acc)%nat 0%nat (map_counts f m)
  = map_fold (λ _ v acc, g v + acc)%nat 0%nat m.
Proof.
  intros Hg. rewrite !map_fold_sum. unfold map_counts.
  rewrite map_to_list_fmap, <- !list_fmap_compose.
  f_equal. apply list_fmap_ext. intros _ [k v] _. simpl. apply Hg.
Qed.

Lemma ratio_in_unit (n t : nat) :
  (n ≤ t)%nat → (0 < t)%nat →
  (0 ≤ 1 - Qc_of_Z (Z.of_nat n) / Qc_of_Z (Z.of_nat t))%Qc
  ∧ (1 - Qc_of_Z (Z.of_nat n) / Qc_of_Z (Z.of_nat t) ≤ 1)%Qc.
Proof.
  intros Hn Ht.
  assert (Htpos : (0 < Qc_of_Z (Z.of_nat t))%Qc) by (apply Qc_of_Z_pos; lia).
  assert (Hne : Qc_of_Z (Z.of_nat t) ≠ 0%Qc) by (apply Qc_of_Z_neq_0; lia).
  assert (H0 : (0 ≤ Qc_of_Z (Z.of_nat n) / Qc_of_Z (Z.of_nat t))%Qc).
  { apply Qc_div_nonneg; [|lia]. rewrite <- Z2Qc_inj_0.
    apply (proj1 (Z2Qc_inj_le _ _)). lia. }
  assert (H1 : (Qc_of_Z (Z.of_nat n) / Qc_of_Z (Z.of_nat t) ≤ 1)%Qc).
  { apply (Qcmult_le_mono_pos_r _ _ (Qc_of_Z (Z.of_nat t))); [done|].
    replace (Qc_of_Z (Z.of_nat n) / Qc_of_Z (Z.of_nat t) * Qc_of_Z (Z.of_nat t))%Qc
      with (Qc_of_Z (Z.of_nat n)) by (by field).
    rewrite Qcmult_1_l. apply (proj1 (Z2Qc_inj_le _ _)). lia. }
  set (x := (Qc_of_Z (Z.of_nat n) / Qc_of_Z (Z.of_nat t))%Qc) in *.
  split.
  - apply (proj2 (Qcplus_le_mono_r 0 (1 - x) x)).
    replace (1 - x + x)%Qc with 1%Qc by ring. by rewrite Qcplus_0_l.
  - apply (proj2 (Qcplus_le_mono_r (1 - x) 1 x)).
    replace (1 - x + x)%Qc with (1 + 0)%Qc by ring.
    by apply (proj1 (Qcplus_le_mono_l 0 x 1)).
Qed.

Lemma summary_ok_inv self q :
  summary self = Ok q →
  (0 < total_stmts (coverage_data self))%nat
  ∧ q = (1 - Qc_of_Z (Z.of_nat (total_not_covered (coverage_data self)))
             / Qc_of_Z (Z.of_nat (total_stmts (coverage_data self))))%Qc.
Proof.
  rewrite summary_totals, truediv_int.
  destruct (decide _) as [E|E]; [done|]. intros [= <-]. split; [lia|done].
Qed.
End coverage_more.

Lemma summary_range (self : CoverageReporter) (q : float) :
  summary self = Ok q → (0 ≤ q)%Qc ∧ (q ≤ 1)%Qc.
Proof.
  intros [Ht ->]%summary_ok_inv.
  apply ratio_in_unit; [apply total_not_covered_le|done].
Qed.

(** X1.  A ratio that [summary] returns lies between 0 and 1. *)
Theorem summary_in_unit_interval (self : CoverageReporter) (q : float) :
  summary self = Ok q → (0 ≤ q)%Qc ∧ (q ≤ 1)%Qc.
Proof. apply summary_range. Qed.

Lemma summary_in_unit_interval_witness :
  summary spec_example = Ok (Q2Qc (1 # 2))
  ∧ (0 ≤ Q2Qc (1 # 2))%Qc ∧ (Q2Qc (1 # 2) ≤ 1)%Qc.
Proof.
  assert (H : summary spec_example = Ok (Q2Qc (1 # 2))) by (vm_compute; reflexivity).
  split; [exact H|]. exact (summary_in_unit_interval spec_example _ H).
Defined.

(** X2.  For one file, [_file_summary] returns the number of statements
    whose execution count is 0 and the number of statements; the first is
    never above the second, and a file without statements gives (0, 0). *)
Theorem file_summary_counts (statement_coverage : gmap string Z) :
  _file_summary statement_coverage
  = (size (filter (λ kv : string * Z, kv.2 = 0) statement_coverage),
     size statement_coverage)
  ∧ ((_file_summary statement_coverage).1 ≤ (_file_summary statement_coverage).2)%nat
  ∧ _file_summary ∅ = (0%nat, 0%nat).
Proof.
  pose proof (_file_summary_spec {| s := statement_coverage |}) as H.
  unfold not_covered_in, stmts_in in H. simpl in H. rewrite H.
  split; [done|]. split; [apply map_size_filter|]. reflexivity.
Qed.

(** X3.  [summary] looks only at whether a count is 0: changing the counts
    by a function that sends 0 to 0 and nothing else to 0 leaves the result,
    returned or raised, as it is. *)
Theorem summary_counts_only_whether_run (f : Z → Z) (m : gmap string file_coverage) :
  (∀ n, f n = 0 ↔ n = 0) →
  summary {| coverage_data := map_counts f m |} = summary {| coverage_data := m |}.
Proof.
  intros Hf. rewrite !summary_totals. simpl.
  unfold total_not_covered, total_stmts. rewrite !total_map_counts; [done| |].
  - intros v. unfold stmts_in. simpl. apply map_size_fmap.
  - intros v. unfold not_covered_in. simpl.
    rewrite map_filter_fmap, map_size_fmap. f_equal.
    apply map_filter_ext. intros k n _. simpl. apply Hf.
Qed.

Lemma summary_counts_only_whether_run_witness :
  summary {| coverage_data := map_counts (λ n, n * 2) (coverage_data spec_example) |}
  = summary spec_example.
Proof.
  apply (summary_counts_only_whether_run (λ n, n * 2) (coverage_data spec_example)).
  intros n. lia.
Defined.

Lemma summary_le (a b : CoverageReporter) (qa qb : float) :
  total_stmts (coverage_data a) = total_stmts (coverage_data b) →
  (total_not_covered (coverage_data b) ≤ total_not_covered (coverage_data a))%nat →
  summary a = Ok qa → summary b = Ok qb → (qa ≤ qb)%Qc.
Proof.
  intros Hst Hle [Ht ->]%summary_ok_inv [_ ->]%summary_ok_inv. rewrite <- Hst.
  assert (Htpos : (0 < Qc_of_Z (Z.of_nat (total_stmts (coverage_data a))))%Qc)
    by (apply Qc_of_Z_pos; lia).
  assert (Hne : Qc_of_Z (Z.of_nat (total_stmts (coverage_data a))) ≠ 0%Qc)
    by (apply Qc_of_Z_neq_0; lia).
  set (t := Qc_of_Z (Z.of_nat (total_stmts (coverage_data a)))) in *.
  set (na := Qc_of_Z (Z.of_nat (total_not_covered (coverage_data a)))).
  set (nb := Qc_of_Z (Z.of_nat (total_not_covered (coverage_data b)))).
  assert (Hn : (nb ≤ na)%Qc) by (apply (proj1 (Z2Qc_inj_le _ _)); lia).
  assert (Hdiv : (nb / t ≤ na / t)%Qc).
  { unfold Qcdiv. apply Qcmult_le_mono_nonneg_r; [|done].
    by apply Qclt_le_weak, Qcinv_pos. }
  apply (proj2 (Qcplus_le_mono_r (1 - na / t) (1 - nb / t) (na / t + nb / t))).
  replace (1 - na / t + (na / t + nb / t))%Qc with (1 + nb / t)%Qc by ring.
  replace (1 - nb / t + (na / t + nb / t))%Qc with (1 + na / t)%Qc by ring.
  by apply (proj1 (Qcplus_le_mono_l _ _ 1)).
Qed.

(** X4.  Between two maps with the same number of statements, the one with
    no more unexecuted statements has no smaller a ratio. *)
Theorem summary_monotone (a b : CoverageReporter) (qa qb : float) :
  total_stmts (coverage_data a) = total_stmts (coverage_data b) →
  (total_not_covered (coverage_data b) ≤ total_not_covered (coverage_data a))%nat →
  summary a = Ok qa → summary b = Ok qb → (qa ≤ qb)%Qc.
Proof. apply summary_le. Qed.

Lemma summary_monotone_witness :
  summary none_covered = Ok 0%Qc ∧ summary all_covered = Ok 1%Qc ∧ (0 ≤ 1)%Qc.
Proof.
  assert (Ha : summary none_covered = Ok 0%Qc) by (vm_compute; reflexivity).
  assert (Hb : summary all_covered = Ok 1%Qc) by (vm_compute; reflexivity).
  split; [exact Ha|]. split; [exact Hb|].
  apply (summary_monotone none_covered all_covered 0%Qc 1%Qc);
    [by vm_compute|vm_compute; lia|exact Ha|exact Hb].
Defined.

(** X5.  A file without statements does not count: adding one under a new
    name leaves the result of [summary], returned or raised, as it is. *)
Theorem summary_ignores_files_without_statements
    (m : gmap string file_coverage) (file : string) :
  m !! file = None →
  summary {| coverage_data := <[file := {| s := ∅ |}]> m |}
  = summary {| coverage_data := m |}.
Proof.
  intros Hk. rewrite !summary_totals. simpl.
  unfold total_not_covered, total_stmts. rewrite !total_insert by done.
  unfold not_covered_in, stmts_in. simpl.
  by rewrite map_filter_empty, map_size_empty.
Qed.

Lemma summary_ignores_files_without_statements_witness :
  summary {| coverage_data := <["empty.js" := {| s := ∅ |}]> (coverage_data spec_example) |}
  = summary spec_example.
Proof.
  apply (summary_ignores_files_without_statements (coverage_data spec_example) "empty.js").
  by vm_compute.
Defined.

(** ** The action grid, continued *)

Section grid_more.
Context {Page : Type} `{!Driver Page}.
Implicit Types (self : WebEnv Page) (v : Rect.t).

Lemma Qfloor_unique (q : Qc) (z : Z) :
  (Qc_of_Z z ≤ q)%Qc → (q < Qc_of_Z (z + 1))%Qc → Qfloor q = z.
Proof.
  intros Hlo Hhi. unfold Qcle, Qclt in *. simpl in *.
  pose proof (Qfloor_le q) as Hle. pose proof (Qlt_floor q) as Hlt.
  assert (Qfloor q < z + 1).
  { rewrite Zlt_Qlt. eapply Qle_lt_trans; [exact Hle|exact Hhi]. }
  assert (z < Qfloor q + 1).
  { rewrite Zlt_Qlt. eapply Qle_lt_trans; [exact Hlo|exact Hlt]. }
  lia.
Qed.

Lemma Qc_half_le (c d : Z) : c ≤ 2 * d → (Qc_of_Z c / Qc_of_Z 2 ≤ Qc_of_Z d)%Qc.
Proof.
  intros Hcd.
  assert (H2 : (0 < Qc_of_Z 2)%Qc) by (by apply Qc_of_Z_pos).
  assert (Hne : Qc_of_Z 2 ≠ 0%Qc) by (by apply Qc_of_Z_neq_0).
  apply (Qcmult_le_mono_pos_r _ _ (Qc_of_Z 2)); [done|].
  replace (Qc_of_Z c / Qc_of_Z 2 * Qc_of_Z 2)%Qc with (Qc_of_Z c) by (by field).
  rewrite <- Z2Qc_inj_mul. apply (proj1 (Z2Qc_inj_le _ _)). lia.
Qed.

Lemma Qc_half_gt (c d : Z) : 2 * d < c → (Qc_of_Z d < Qc_of_Z c / Qc_of_Z 2)%Qc.
Proof.
  intros Hcd.
  assert (H2 : (0 < Qc_of_Z 2)%Qc) by (by apply Qc_of_Z_pos).
  assert (Hne : Qc_of_Z 2 ≠ 0%Qc) by (by apply Qc_of_Z_neq_0).
  apply (Qcmult_lt_mono_pos_r _ _ (Qc_of_Z 2)); [done|].
  replace (Qc_of_Z c / Qc_of_Z 2 * Qc_of_Z 2)%Qc with (Qc_of_Z c) by (by field).
  rewrite <- Z2Qc_inj_mul. apply (proj1 (Z2Qc_inj_lt _ _)). lia.
Qed.

(** The center of a cell in integers: half a cell, rounded up, before the
    far edge of the cell. *)
Lemma cell_center_closed (k c : Z) :
  1 ≤ k → 1 ≤ c → cell_center k c = k * c - (c + 1) `div` 2.
Proof.
  intros Hk Hc. unfold cell_center, truncate.
  pose proof (Z.div_mod (c + 1) 2 ltac:(lia)) as Hdm.
  pose proof (Z.mod_pos_bound (c + 1) 2 ltac:(lia)) as Hmod.
  set (d := (c + 1) `div` 2) in *.
  set (q := (Qc_of_Z k * Qc_of_Z c - Qc_of_Z c / Qc_of_Z 2)%Qc).
  assert (Hlo : (Qc_of_Z (k * c - d) ≤ q)%Qc).
  { unfold q. rewrite Z2Qc_inj_sub, Z2Qc_inj_mul.
    apply (proj2 (Qcplus_le_mono_r _ _ (Qc_of_Z c / Qc_of_Z 2 + Qc_of_Z d))).
    replace (Qc_of_Z k * Qc_of_Z c - Qc_of_Z d + (Qc_of_Z c / Qc_of_Z 2 + Qc_of_Z d))%Qc
      with (Qc_of_Z k * Qc_of_Z c + Qc_of_Z c / Qc_of_Z 2)%Qc by ring.
    replace (Qc_of_Z k * Qc_of_Z c - Qc_of_Z c / Qc_of_Z 2
             + (Qc_of_Z c / Qc_of_Z 2 + Qc_of_Z d))%Qc
      with (Qc_of_Z k * Qc_of_Z c + Qc_of_Z d)%Qc by ring.
    apply (proj1 (Qcplus_le_mono_l _ _ _)). apply Qc_half_le. lia. }
  assert (Hhi : (q < Qc_of_Z (k * c - d + 1))%Qc).
  { unfold q. replace (k * c - d + 1) with (k * c - (d - 1)) by lia.
    rewrite Z2Qc_inj_sub, Z2Qc_inj_mul.
    apply (proj2 (Qcplus_lt_mono_r _ _ (Qc_of_Z c / Qc_of_Z 2 + Qc_of_Z (d - 1)))).
    replace (Qc_of_Z k * Qc_of_Z c - Qc_of_Z c / Qc_of_Z 2
             + (Qc_of_Z c / Qc_of_Z 2 + Qc_of_Z (d - 1)))%Qc
      with (Qc_of_Z k * Qc_of_Z c + Qc_of_Z (d - 1))%Qc by ring.
    replace (Qc_of_Z k * Qc_of_Z c - Qc_of_Z (d - 1)
             + (Qc_of_Z c / Qc_of_Z 2 + Qc_of_Z (d - 1)))%Qc
      with (Qc_of_Z k * Qc_of_Z c + Qc_of_Z c / Qc_of_Z 2)%Qc by ring.
    apply (proj1 (Qcplus_lt_mono_l _ _ _)). apply Qc_half_gt. lia. }
  assert (H0 : (0 ≤ q)%Qc).
  { eapply Qcle_trans; [|exact Hlo]. rewrite <- Z2Qc_inj_0.
    apply (proj1 (Z2Qc_inj_le _ _)). nia. }
  destruct (decide _); [|done]. by apply Qfloor_unique.
Qed.

(** Whole cells fit in the viewport. *)
Lemma whole_cells_fit (w : Qc) (c : Z) :
  0 < c → (Qc_of_Z (Qfloor (w / Qc_of_Z c)%Qc * c) ≤ w)%Qc.
Proof.
  intros Hc.
  assert (Hcpos : (0 < Qc_of_Z c)%Qc) by (by apply Qc_of_Z_pos).
  assert (Hne : Qc_of_Z c ≠ 0%Qc) by (apply Qc_of_Z_neq_0; lia).
  rewrite Z2Qc_inj_mul.
  replace w with (w / Qc_of_Z c * Qc_of_Z c)%Qc at 2 by (by field).
  apply Qcmult_le_mono_nonneg_r; [by apply Qclt_le_weak|].
  exact (Qfloor_le (w / Qc_of_Z c)%Qc).
Qed.

Lemma elem_of_generateActions v (c : Z) (a : Action.t) :
  a ∈ generateActions v c ↔
  ∃ row col,
    1 ≤ row ≤ Qfloor (to_float (Rect.height v) / Qc_of_Z c)%Qc
    ∧ 1 ≤ col ≤ Qfloor (to_float (Rect.width v) / Qc_of_Z c)%Qc
    ∧ a = Action.mk (cell_center col c) (cell_center row c) "click".
Proof.
  unfold generateActions. rewrite <- list_bind_flat_map.
  change (list_bind _ _ ?f ?l) with (l ≫= f). rewrite list_elem_of_bind.
  split.
  - intros (row & Ha & Hrow%elem_of_seqZ).
    change (map ?f ?l) with (f <$> l) in Ha.
    apply list_elem_of_fmap in Ha as (col & -> & Hcol%elem_of_seqZ).
    exists row, col. split; [lia|]. split; [lia|done].
  - intros (row & col & Hrow & Hcol & ->). exists row. split.
    + change (map ?f ?l) with (f <$> l). apply list_elem_of_fmap.
      exists col. split; [done|]. apply elem_of_seqZ. lia.
    + apply elem_of_seqZ. lia.
Qed.
End grid_more.

(** X6.  In integers, the actions that [_actions] returns are exactly the
    clicks at (col*c - ceil(c/2), row*c - ceil(c/2)) for the whole cells
    (col, row) of the viewport, counted from 1: for an even cell size the
    exact center of the cell, for an odd one half a pixel before it. *)
Theorem actions_integer_centers {Page : Type} `{!Driver Page}
    (self : WebEnv Page) (v : Rect.t) (actions : list Action.t) (self' : WebEnv Page) :
  viewport self = Some v →
  (0 ≤ to_float (Rect.width v))%Qc →
  (0 ≤ to_float (Rect.height v))%Qc →
  1 ≤ CELL_SIZE self →
  _actions self = (Ok actions, self') →
  let c := CELL_SIZE self in
  ∀ a : Action.t,
    a ∈ actions ↔
    ∃ row col,
      1 ≤ row ≤ Qfloor (to_float (Rect.height v) / Qc_of_Z c)%Qc
      ∧ 1 ≤ col ≤ Qfloor (to_float (Rect.width v) / Qc_of_Z c)%Qc
      ∧ a = Action.mk (col * c - (c + 1) `div` 2) (row * c - (c + 1) `div` 2) "click".
Proof.
  intros Hv Hw Hh Hc Hrun c a.
  rewrite (_actions_grid self v Hv Hw Hh) in Hrun by lia.
  injection Hrun as <- _. rewrite elem_of_generateActions. fold c.
  split; intros (row & col & Hrow & Hcol & ->); exists row, col;
    (split; [done|]); (split; [done|]);
    by rewrite !cell_center_closed by lia.
Qed.

Lemma actions_integer_centers_witness :
  click_at 30 50
    ∈ (row ← [10; 30; 50; 70; 90]; col ← [10; 30; 50; 70; 90]; [click_at col row]) ↔
  ∃ row col,
    1 ≤ row ≤ Qfloor (to_float (PyInt 100) / Qc_of_Z 20)%Qc
    ∧ 1 ≤ col ≤ Qfloor (to_float (PyInt 100) / Qc_of_Z 20)%Qc
    ∧ click_at 30 50
      = Action.mk (col * 20 - (20 + 1) `div` 2) (row * 20 - (20 + 1) `div` 2) "click".
Proof.
  assert (Hw : (0 ≤ to_float (Rect.width viewport_100))%Qc) by (by compute).
  assert (Hh : (0 ≤ to_float (Rect.height viewport_100))%Qc) by (by compute).
  assert (Hc : 1 ≤ CELL_SIZE demo_env_100) by (simpl; lia).
  assert (Hrun : _actions demo_env_100
                 = (Ok (row ← [10; 30; 50; 70; 90]; col ← [10; 30; 50; 70; 90];
                        [click_at col row]), demo_env_100))
    by (vm_compute; reflexivity).
  exact (actions_integer_centers demo_env_100 viewport_100 _ _ eq_refl Hw Hh Hc Hrun
           (click_at 30 50)).
Defined.

(** X7.  Every action that [_actions] returns is a click inside the
    viewport, 0 <= x < width and 0 <= y < height, and no action occurs
    twice. *)
Theorem actions_inside_viewport {Page : Type} `{!Driver Page}
    (self : WebEnv Page) (v : Rect.t) (actions : list Action.t) (self' : WebEnv Page) :
  viewport self = Some v →
  (0 ≤ to_float (Rect.width v))%Qc →
  (0 ≤ to_float (Rect.height v))%Qc →
  1 ≤ CELL_SIZE self →
  _actions self = (Ok actions, self') →
  (∀ a : Action.t,
     a ∈ actions →
     Action.type a = "click"
     ∧ 0 ≤ Action.x a ∧ (Qc_of_Z (Action.x a) < to_float (Rect.width v))%Qc
     ∧ 0 ≤ Action.y a ∧ (Qc_of_Z (Action.y a) < to_float (Rect.height v))%Qc)
  ∧ NoDup actions.
Proof.
  intros Hv Hw Hh Hc Hrun.
  rewrite (_actions_grid self v Hv Hw Hh) in Hrun by lia.
  injection Hrun as <- _.
  set (c := CELL_SIZE self) in *.
  pose proof (Z.div_mod (c + 1) 2 ltac:(lia)) as Hdm.
  pose proof (Z.mod_pos_bound (c + 1) 2 ltac:(lia)) as Hmod.
  assert (Hin : ∀ (w : Qc) k, 1 ≤ k ≤ Qfloor (w / Qc_of_Z c)%Qc →
            0 ≤ cell_center k c ∧ (Qc_of_Z (cell_center k c) < w)%Qc).
  { intros w k Hk. rewrite cell_center_closed by lia. split; [nia|].
    eapply Qclt_le_trans; [|apply (whole_cells_fit w c); lia].
    apply (proj1 (Z2Qc_inj_lt _ _)). nia. }
  split.
  - intros a (row & col & Hrow & Hcol & ->)%elem_of_generateActions. simpl.
    destruct (Hin _ _ Hrow), (Hin _ _ Hcol). done.
  - unfold generateActions. rewrite <- list_bind_flat_map.
    change (list_bind _ _ ?f ?l) with (l ≫= f). apply NoDup_bind.
    + intros row1 row2 a Hrow1%elem_of_seqZ Hrow2%elem_of_seqZ Ha1 Ha2.
      change (map ?f ?l) with (f <$> l) in Ha1, Ha2.
      apply list_elem_of_fmap in Ha1 as (col1 & -> & _).
      apply list_elem_of_fmap in Ha2 as (col2 & [= _ Hy] & _).
      rewrite !cell_center_closed in Hy by lia. nia.
    + intros row Hrow. change (map ?f ?l) with (f <$> l).
      apply NoDup_fmap_2_strong; [|apply NoDup_seqZ].
      intros col1 col2 Hcol1%elem_of_seqZ Hcol2%elem_of_seqZ [= Hx].
      rewrite !cell_center_closed in Hx by lia. nia.
    + apply NoDup_seqZ.
Qed.

Lemma actions_inside_viewport_witness :
  ∃ actions : list Action.t,
    _actions demo_env_100 = (Ok actions, demo_env_100)
    ∧ (∀ a : Action.t,
         a ∈ actions →
         Action.type a = "click"
         ∧ 0 ≤ Action.x a ∧ (Qc_of_Z (Action.x a) < Qc_of_Z 100)%Qc
         ∧ 0 ≤ Action.y a ∧ (Qc_of_Z (Action.y a) < Qc_of_Z 100)%Qc)
    ∧ NoDup actions.
Proof.
  assert (Hw : (0 ≤ to_float (Rect.width viewport_100))%Qc) by (by compute).
  assert (Hh : (0 ≤ to_float (Rect.height viewport_100))%Qc) by (by compute).
  assert (Hc : 1 ≤ CELL_SIZE demo_env_100) by (simpl; lia).
  destruct (_actions demo_env_100) as [[actions|e] self'] eqn:Hrun;
    [|vm_compute in Hrun; discriminate].
  assert (Hself : self' = demo_env_100).
  { vm_compute in Hrun. injection Hrun as _ <-. reflexivity. }
  subst self'. exists actions. split; [reflexivity|].
  exact (actions_inside_viewport demo_env_100 viewport_100 _ _ eq_refl Hw Hh Hc Hrun).
Defined.

(** ** The environment, continued *)

Section env_more.
Context {Page : Type} `{!Driver Page}.
Implicit Types (self : WebEnv Page).

Lemma viewport_ok_inv self v self' :
  _viewport self = (Ok v, self') →
  ∃ p root,
    page self = Some p
    ∧ querySelector (content_selector self) p = Some root
    ∧ v = getBoundingClientRect p root ∧ self' = self.
Proof.
  unfold _viewport. intros (sel & s0 & Hsel & H)%bind_ok_inv.
  injection Hsel as <- <-.
  apply bind_ok_inv in H as (p & s0 & [Hp ->]%attr_ok_inv & H).
  destruct (querySelector _ _) as [root|] eqn:Hroot; [|done].
  injection H as <- <-. by exists p, root.
Qed.

(** What a returning [reset] did, call by call. *)
Lemma reset_ok_inv_full self st acts self' :
  reset self = (Ok (st, acts), self') →
  ∃ p0 p root m c,
    newPage (headless self) = Ok p0
    ∧ goto (app_url self) p0 = Ok p
    ∧ querySelector (content_selector self) p = Some root
    ∧ window_coverage p = Ok m
    ∧ summary {| coverage_data := m |} = Ok c
    ∧ self' = set_coverage c (set_viewport (getBoundingClientRect p root)
                               (set_page p (set_page p0 self)))
    ∧ (_state self').1 = Ok st
    ∧ (_actions self').1 = Ok acts.
Proof.
  unfold reset. intros H.
  apply bind_ok_inv in H as (h & s0 & Hh & H). injection Hh as <- <-.
  apply bind_ok_inv in H as (p0 & s0 & [Hnew ->]%lift_ok_inv & H).
  apply bind_ok_inv in H as (u & s0 & Hassign & H).
  unfold assign in Hassign. injection Hassign as _ <-.
  apply bind_ok_inv in H as (url & s0 & Hurl & H). injection Hurl as <- <-.
  apply bind_ok_inv in H as (u' & s1 & (p1 & p & Hp1 & Hgoto & Hs1)%run_cmd_ok_inv & H).
  subst s1. simpl in Hp1. injection Hp1 as <-. simpl in Hgoto.
  apply bind_ok_inv in H as (v & s2 & (p2 & root & Hp2 & Hroot & -> & ->)%viewport_ok_inv & H).
  simpl in Hp2. injection Hp2 as <-. simpl in Hroot.
  apply bind_ok_inv in H as (u2 & s0 & Hassign & H).
  unfold assign in Hassign. injection Hassign as _ <-.
  apply bind_ok_inv in H as (c & s0 & (p2 & m & Hp2 & Hm & Hc & Hs0)%coverage_ok_inv & H).
  subst s0. simpl in Hp2. injection Hp2 as <-.
  apply bind_ok_inv in H as (u3 & s0 & Hassign & H).
  unfold assign in Hassign. injection Hassign as _ <-.
  apply bind_ok_inv in H as (st' & s3 & Hst & H).
  match type of Hst with _state ?s = _ =>
    pose proof (reads__state s) as Hs3; rewrite Hst in Hs3; simpl in Hs3; subst s3 end.
  apply bind_ok_inv in H as (acts' & s4 & Hacts & H).
  match type of Hacts with _actions ?s = _ =>
    pose proof (reads__actions s) as Hs4; rewrite Hacts in Hs4; simpl in Hs4; subst s4 end.
  unfold mret, M_ret in H. injection H as <- <- <-.
  exists p0, p, root, m, c. rewrite Hst, Hacts. done.
Qed.
End env_more.

(** X8.  [step] on an object that has no page or no viewport yet, as
    [__init__] leaves it, raises AttributeError before anything is clicked or
    assigned. *)
Theorem step_before_reset_raises {Page : Type} `{!Driver Page}
    (self : WebEnv Page) (action : Action.t) :
  page self = None ∨ viewport self = None →
  step action self = (Raise AttributeError, self).
Proof.
  intros Hnone. unfold step, mbind, M_bind, attr.
  destruct (page self) as [p|]; [|done].
  destruct (viewport self) as [v|]; [|done]. by destruct Hnone.
Qed.

Lemma step_before_reset_raises_witness :
  step (click_at 10 10) (demo_env None) = (Raise AttributeError, demo_env None).
Proof.
  apply (step_before_reset_raises (demo_env None) (click_at 10 10)). by left.
Defined.

(** X9.  A [reset] that returns has opened a page, loaded the url, stored as
    viewport the bounding box of the element that the content selector finds
    on the loaded page, and stored as coverage the summary of the coverage
    map of that page; the state and the actions it returns are those of the
    object it leaves. *)
Theorem reset_establishes {Page : Type} `{!Driver Page}
    (self : WebEnv Page) (st : State.t) (acts : list Action.t) (self' : WebEnv Page) :
  reset self = (Ok (st, acts), self') →
  ∃ (p0 p : Page) (root : element) (m : gmap string file_coverage) (c : float),
    newPage (headless self) = Ok p0
    ∧ goto (app_url self) p0 = Ok p
    ∧ querySelector (content_selector self) p = Some root
    ∧ window_coverage p = Ok m
    ∧ summary {| coverage_data := m |} = Ok c
    ∧ page self' = Some p
    ∧ viewport self' = Some (getBoundingClientRect p root)
    ∧ coverage self' = Some c
    ∧ same_session_config self self'
    ∧ (_state self').1 = Ok st
    ∧ (_actions self').1 = Ok acts.
Proof.
  intros (p0 & p & root & m & c & H0 & Hp & Hroot & Hm & Hc & -> & Hst & Hacts)
    %reset_ok_inv_full.
  exists p0, p, root, m, c. split_and!; try done.
Qed.

Section reset_more.
Context {Page : Type} `{!Driver Page}.
Implicit Types (self : WebEnv Page).

Lemma run_cmd_eval (cmd : Page → result Page) self p :
  page self = Some p →
  _run_cmd cmd self
  = match cmd p with
    | Ok p' => (Ok (), set_page p' self)
    | Raise e => (Raise e, self)
    end.
Proof.
  intros Hp. unfold _run_cmd, mbind, M_bind, attr, lift, assign. rewrite Hp.
  by destruct (cmd p).
Qed.

Lemma viewport_eval self p :
  page self = Some p →
  _viewport self
  = (match querySelector (content_selector self) p with
     | Some root => Ok (getBoundingClientRect p root)
     | None => Raise evaluation_failed
     end, self).
Proof.
  intros Hp. unfold _viewport, mbind, M_bind, attr, gets. rewrite Hp.
  by destruct (querySelector _ _).
Qed.

Lemma coverage_eval self p :
  page self = Some p →
  _coverage self
  = (m ← window_coverage p; summary {| coverage_data := m |}, self).
Proof.
  intros Hp. unfold _coverage, _run_query, mbind, M_bind, result_bind, attr, lift.
  rewrite Hp. by destruct (window_coverage p).
Qed.

Lemma state_eval self : _state self = ((_state self).1, self).
Proof.
  pose proof (reads__state self) as H. by destruct (_state self) as [r s']; simpl in *; subst.
Qed.

Lemma actions_eval self : _actions self = ((_actions self).1, self).
Proof.
  pose proof (reads__actions self) as H. by destruct (_actions self) as [r s']; simpl in *; subst.
Qed.

(** [reset], call by call. *)
Lemma reset_eval self :
  reset self
  = match newPage (headless self) with
    | Raise e => (Raise e, self)
    | Ok p0 =>
        match goto (app_url self) p0 with
        | Raise e => (Raise e, set_page p0 self)
        | Ok p =>
            match querySelector (content_selector self) p with
            | None => (Raise evaluation_failed, set_page p (set_page p0 self))
            | Some root =>
                let self1 :=
                  set_viewport (getBoundingClientRect p root)
                    (set_page p (set_page p0 self)) in
                match m ← window_coverage p; summary {| coverage_data := m |} with
                | Raise e => (Raise e, self1)
                | Ok c =>
                    let self2 := set_coverage c self1 in
                    match (_state self2).1 with
                    | Raise e => (Raise e, self2)
                    | Ok st =>
                        match (_actions self2).1 with
                        | Raise e => (Raise e, self2)
                        | Ok acts => (Ok (st, acts), self2)
                        end
                    end
                end
            end
        end
    end.
Proof.
  unfold reset, mbind at 1 2 3 4 5 6 7 8 9 10 11, M_bind.
  unfold gets at 1, lift at 1. cbn beta iota.
  destruct (newPage (headless self)) as [p0|e]; [|done].
  unfold assign at 1, gets at 1. cbn beta iota.
  rewrite (run_cmd_eval _ (set_page p0 self) p0 eq_refl). cbn [app_url set_page].
  destruct (goto (app_url self) p0) as [p|e]; [|done].
  rewrite (viewport_eval (set_page p (set_page p0 self)) p eq_refl).
  cbn [content_selector set_page].
  destruct (querySelector (content_selector self) p) as [root|]; [|done].
  unfold assign at 1. cbn beta iota.
  rewrite (coverage_eval (set_viewport (getBoundingClientRect p root)
                            (set_page p (set_page p0 self))) p eq_refl).
  destruct (m ← window_coverage p; summary {| coverage_data := m |}) as [c|e]; [|done].
  unfold assign at 1. cbn beta iota zeta.
  rewrite state_eval. destruct (_state _).1 as [st|e]; [|done].
  rewrite actions_eval. by destruct (_actions _).1 as [acts|e].
Qed.
End reset_more.

Section step_more.
Context {Page : Type} `{!Driver Page}.
Implicit Types (self : WebEnv Page).

(** [step] from an object with a page and a viewport, call by call. *)
Lemma step_eval action self p v :
  page self = Some p → viewport self = Some v →
  step action self
  = match mouse_click (add (Rect.x v) (PyInt (Action.x action)))
                      (add (Rect.y v) (PyInt (Action.y action))) p with
    | Raise e => (Raise e, self)
    | Ok p' =>
        let self1 := set_page p' self in
        match coverage self with
        | None => (Raise AttributeError, self1)
        | Some old =>
            match m ← window_coverage p'; summary {| coverage_data := m |} with
            | Raise e => (Raise e, self1)
            | Ok new =>
                let self2 := set_coverage new self1 in
                match (_state self2).1 with
                | Raise e => (Raise e, self2)
                | Ok st =>
                    match (_actions self2).1 with
                    | Raise e => (Raise e, self2)
                    | Ok acts => (Ok (st, acts, (new - old)%Qc), self2)
                    end
                end
            end
        end
    end.
Proof.
  intros Hp Hv. unfold step, mbind at 1 2 3 4 5 6 7 8, M_bind.
  unfold attr at 1 2. rewrite Hp, Hv. cbn beta iota.
  rewrite (run_cmd_eval _ self p Hp).
  destruct (mouse_click _ _ p) as [p'|e]; [|done].
  unfold attr at 1. cbn [coverage set_page].
  destruct (coverage self) as [old|]; [|done].
  rewrite (coverage_eval (set_page p' self) p' eq_refl).
  destruct (m ← window_coverage p'; summary {| coverage_data := m |}) as [new|e]; [|done].
  unfold assign at 1. cbn beta iota zeta.
  rewrite state_eval. destruct (_state _).1 as [st|e]; [|done].
  rewrite actions_eval. by destruct (_actions _).1 as [acts|e].
Qed.

Lemma reset_from_config (self1 self2 : WebEnv Page) :
  same_session_config self1 self2 →
  (reset self1).1 = (reset self2).1
  ∧ (is_ok (reset self1).1 → (reset self1).2 = (reset self2).2).
Proof.
  destruct self1 as [c1 u1 s1 h1 p1 v1 cov1], self2 as [c2 u2 s2 h2 p2 v2 cov2].
  intros (Hc & Hu & Hs & Hh). simpl in *. subst c2 u2 s2 h2.
  rewrite !reset_eval.
  cbn [headless app_url content_selector set_page set_viewport set_coverage
       CELL_SIZE page viewport coverage].
  destruct (newPage h1) as [p0|e]; [|done].
  destruct (goto u1 p0) as [p|e]; [|done].
  destruct (querySelector s1 p) as [root|]; [|done].
  destruct (m ← window_coverage p; summary {| coverage_data := m |}) as [c|e]; [|done].
  cbn zeta. destruct (_state _).1 as [st|e]; [|done].
  by destruct (_actions _).1 as [acts|e].
Qed.
End step_more.

Lemma reset_establishes_witness :
  ∃ (st : State.t) (acts : list Action.t),
    reset (demo_env (Some "body")) = (Ok (st, acts), demo_ready)
    ∧ page demo_ready = Some {| loaded := true; go_hits := 0 |}
    ∧ viewport demo_ready = Some (Rect.mk (PyInt 0) (PyInt 0) (PyInt 80) (PyInt 60))
    ∧ coverage demo_ready = Some (Q2Qc (1 # 2)).
Proof.
  destruct (reset (demo_env (Some "body"))) as [[[st acts]|e] self'] eqn:Hreset;
    [|vm_compute in Hreset; discriminate].
  assert (Hself : self' = demo_ready) by (unfold demo_ready; by rewrite Hreset).
  subst self'.
  destruct (reset_establishes _ _ _ _ Hreset)
    as (p0 & p & root & m & c & _ & _ & _ & _ & _ & Hp & Hv & Hc & _).
  exists st, acts. split; [reflexivity|].
  split; [by vm_compute|]. split; by vm_compute.
Defined.

(** X10.  [reset] starts afresh: its result depends on the url, the content
    selector, the headless flag and the cell size only, not on the page, the
    viewport or the coverage that an earlier session has left in the object;
    when it returns, the object it leaves does not depend on them either. *)
Theorem reset_ignores_previous_session {Page : Type} `{!Driver Page}
    (self1 self2 : WebEnv Page) :
  same_session_config self1 self2 →
  (reset self1).1 = (reset self2).1
  ∧ (is_ok (reset self1).1 → (reset self1).2 = (reset self2).2).
Proof. apply reset_from_config. Qed.

Lemma reset_ignores_previous_session_witness :
  (reset (demo_env (Some "body"))).1 = (reset demo_clicked).1
  ∧ (reset (demo_env (Some "body"))).2 = (reset demo_clicked).2.
Proof.
  assert (Hcfg : same_session_config (demo_env (Some "body")) demo_clicked)
    by (by vm_compute).
  destruct (reset_ignores_previous_session _ _ Hcfg) as [Hres Hobj].
  split; [exact Hres|]. apply Hobj. by vm_compute.
Defined.

(** X11.  When the content selector matches nothing on the loaded page,
    [reset] raises the driver's evaluation error; it has assigned the page,
    and neither a viewport nor a coverage. *)
Theorem reset_selector_failure {Page : Type} `{!Driver Page}
    (self : WebEnv Page) (p0 p : Page) :
  newPage (headless self) = Ok p0 →
  goto (app_url self) p0 = Ok p →
  querySelector (content_selector self) p = None →
  reset self = (Raise evaluation_failed, set_page p (set_page p0 self))
  ∧ viewport (reset self).2 = viewport self
  ∧ coverage (reset self).2 = coverage self.
Proof.
  intros H0 Hp Hroot. rewrite reset_eval, H0, Hp, Hroot. done.
Qed.

Lemma reset_selector_failure_witness :
  reset (demo_env (Some "#missing"))
  = (Raise evaluation_failed,
     set_page {| loaded := true; go_hits := 0 |}
       (set_page {| loaded := false; go_hits := 0 |} (demo_env (Some "#missing"))))
  ∧ viewport (reset (demo_env (Some "#missing"))).2 = None
  ∧ coverage (reset (demo_env (Some "#missing"))).2 = None.
Proof.
  exact (reset_selector_failure (demo_env (Some "#missing"))
           {| loaded := false; go_hits := 0 |} {| loaded := true; go_hits := 0 |}
           eq_refl eq_refl eq_refl).
Defined.

(** X12.  When the coverage map of the loaded page has no statement in
    total, [reset] raises ZeroDivisionError; it has assigned the page and the
    viewport, and no coverage. *)
Theorem reset_without_statements_raises {Page : Type} `{!Driver Page}
    (self : WebEnv Page) (p0 p : Page) (root : element)
    (m : gmap string file_coverage) :
  newPage (headless self) = Ok p0 →
  goto (app_url self) p0 = Ok p →
  querySelector (content_selector self) p = Some root →
  window_coverage p = Ok m →
  total_stmts m = 0%nat →
  reset self
  = (Raise ZeroDivisionError,
     set_viewport (getBoundingClientRect p root) (set_page p (set_page p0 self)))
  ∧ coverage (reset self).2 = coverage self.
Proof.
  intros H0 Hp Hroot Hm Hzero. rewrite reset_eval, H0, Hp, Hroot, Hm.
  change (Ok m ≫= _) with (summary {| coverage_data := m |}).
  rewrite (summary_raises {| coverage_data := m |} Hzero). done.
Qed.

Lemma reset_without_statements_raises_witness :
  reset bare_env
  = (Raise ZeroDivisionError,
     set_viewport (Rect.mk (PyInt 0) (PyInt 0) (PyInt 80) (PyInt 60))
       (set_page () (set_page () bare_env)))
  ∧ coverage (reset bare_env).2 = None.
Proof.
  destruct (demo_select "body") as [root|] eqn:Hroot; [|vm_compute in Hroot; discriminate].
  assert (Hbox : demo_box root = Rect.mk (PyInt 0) (PyInt 0) (PyInt 80) (PyInt 60)).
  { vm_compute in Hroot. injection Hroot as <-. reflexivity. }
  rewrite <- Hbox.
  exact (reset_without_statements_raises bare_env () () root ∅
           eq_refl eq_refl Hroot eq_refl eq_refl).
Defined.

(** X13.  When building the [State] fails after the click, [step] raises
    that error with the click injected and the stored coverage already moved
    to the new measurement: the reward of that click is not returned, and the
    next [step] measures from the new coverage. *)
Theorem step_raises_after_updating_coverage {Page : Type} `{!Driver Page}
    (self : WebEnv Page) (action : Action.t) (p p' : Page) (v : Rect.t)
    (old new : float) (m : gmap string file_coverage) (e : exn) :
  page self = Some p →
  viewport self = Some v →
  coverage self = Some old →
  mouse_click (add (Rect.x v) (PyInt (Action.x action)))
              (add (Rect.y v) (PyInt (Action.y action))) p = Ok p' →
  window_coverage p' = Ok m →
  summary {| coverage_data := m |} = Ok new →
  (_state (set_coverage new (set_page p' self))).1 = Raise e →
  step action self = (Raise e, set_coverage new (set_page p' self))
  ∧ coverage (step action self).2 = Some new
  ∧ page (step action self).2 = Some p'.
Proof.
  intros Hp Hv Hold Hclick Hm Hnew Hstate.
  rewrite (step_eval action self p v Hp Hv), Hclick, Hold, Hm.
  change (Ok m ≫= _) with (summary {| coverage_data := m |}).
  rewrite Hnew. cbn zeta. rewrite Hstate. done.
Qed.

Lemma step_raises_after_updating_coverage_witness :
  coverage demo_fractional = Some (Q2Qc (1 # 2))
  ∧ step (click_at 10 10) demo_fractional
    = (Raise TypeError,
       set_coverage 1%Qc (set_page {| loaded := true; go_hits := 1 |} demo_fractional))
  ∧ coverage (step (click_at 10 10) demo_fractional).2 = Some 1%Qc
  ∧ page (step (click_at 10 10) demo_fractional).2
    = Some {| loaded := true; go_hits := 1 |}.
Proof.
  split; [by vm_compute|].
  apply (step_raises_after_updating_coverage demo_fractional (click_at 10 10)
           {| loaded := true; go_hits := 0 |} {| loaded := true; go_hits := 1 |}
           (Rect.mk (PyInt 8) (PyFloat (Q2Qc (73 # 2))) (PyInt 64) (PyFloat (Q2Qc (35 # 2))))
           (Q2Qc (1 # 2)) 1%Qc (demo_coverage {| loaded := true; go_hits := 1 |}) TypeError);
    by vm_compute.
Defined.

Section reward.
Context {Page : Type} `{!Driver Page}.
Implicit Types (self : WebEnv Page).

Lemma Qc_sub_nonneg (a b : Qc) : (b ≤ a)%Qc → (0 ≤ a - b)%Qc.
Proof.
  intros Hab. apply (proj2 (Qcplus_le_mono_r 0 (a - b) b)).
  replace (a - b + b)%Qc with a by ring. by rewrite Qcplus_0_l.
Qed.

Lemma Qc_sub_unit (a b : Qc) :
  (0 ≤ a)%Qc → (a ≤ 1)%Qc → (0 ≤ b)%Qc → (b ≤ 1)%Qc →
  (-1 ≤ a - b)%Qc ∧ (a - b ≤ 1)%Qc.
Proof.
  intros Ha0 Ha1 Hb0 Hb1. unfold Qcminus. split.
  - assert (H : (0 + - (1) ≤ a + - b)%Qc)
      by (apply Qcplus_le_compat; [done|by apply Qcopp_le_compat]).
    by rewrite Qcplus_0_l in H.
  - assert (H : (a + - b ≤ 1 + - 0)%Qc)
      by (apply Qcplus_le_compat; [done|by apply Qcopp_le_compat]).
    by replace (1 + - 0)%Qc with 1%Qc in H by ring.
Qed.

Lemma step_reward_range self before action st acts r self' :
  Ready self before →
  step action self = (Ok (st, acts, r), self') →
  ((-1 ≤ r)%Qc ∧ (r ≤ 1)%Qc)
  ∧ ∃ (p' : Page) (after : gmap string file_coverage),
      page self' = Some p'
      ∧ window_coverage p' = Ok after
      ∧ (total_stmts after = total_stmts before →
         (total_not_covered after ≤ total_not_covered before)%nat → (0 ≤ r)%Qc)
      ∧ (total_stmts after = total_stmts before →
         total_not_covered after = total_not_covered before → r = 0%Qc).
Proof.
  intros (_ & _ & cb & Hcb & Hbefore) Hstep.
  apply step_ok_inv in Hstep
    as (p & v & p' & old & after & ca & Hp & Hv & Hclick & Hold & Hm & Hca & -> & -> & _).
  assert (old = cb) as -> by congruence.
  destruct (summary_range _ _ Hbefore) as [Hb0 Hb1].
  destruct (summary_range _ _ Hca) as [Ha0 Ha1].
  split; [by apply Qc_sub_unit|].
  exists p', after. split; [done|]. split; [done|]. split.
  - intros Hst Hn. apply Qc_sub_nonneg.
    by apply (summary_le {| coverage_data := before |} {| coverage_data := after |}).
  - intros Hst Hn.
    apply summary_ok_inv in Hbefore as [_ ->]. apply summary_ok_inv in Hca as [_ ->].
    simpl. rewrite Hst, Hn. apply Qcplus_opp_r.
Qed.
End reward.

(** X14.  A reward that [step] returns lies between -1 and 1.  When the
    coverage map read after the click has as many statements as the one
    measured before and no more unexecuted ones, the reward is not negative;
    when it has as many unexecuted ones, the reward is 0. *)
Theorem step_reward_bounds {Page : Type} `{!Driver Page}
    (self : WebEnv Page) (before : gmap string file_coverage) (action : Action.t)
    (st : State.t) (acts : list Action.t) (r : float) (self' : WebEnv Page) :
  Ready self before →
  step action self = (Ok (st, acts, r), self') →
  ((-1 ≤ r)%Qc ∧ (r ≤ 1)%Qc)
  ∧ ∃ (p' : Page) (after : gmap string file_coverage),
      page self' = Some p'
      ∧ window_coverage p' = Ok after
      ∧ (total_stmts after = total_stmts before →
         (total_not_covered after ≤ total_not_covered before)%nat → (0 ≤ r)%Qc)
      ∧ (total_stmts after = total_stmts before →
         total_not_covered after = total_not_covered before → r = 0%Qc).
Proof. apply step_reward_range. Qed.

Lemma step_reward_bounds_witness :
  ∃ (st : State.t) (acts : list Action.t) (r : float) (self' : WebEnv demo_page),
    step (click_at 10 10) demo_ready = (Ok (st, acts, r), self')
    ∧ r = Q2Qc (1 # 2) ∧ (-1 ≤ r)%Qc ∧ (r ≤ 1)%Qc.
Proof.
  assert (Hready : Ready demo_ready (demo_coverage {| loaded := true; go_hits := 0 |})).
  { split; [by vm_compute; eauto|]. split; [by vm_compute; eauto|].
    exists (Q2Qc (1 # 2)). split; vm_compute; reflexivity. }
  destruct (step (click_at 10 10) demo_ready) as [[[[st acts] r]|e] self'] eqn:Hstep;
    [|vm_compute in Hstep; discriminate].
  assert (Hr : r = Q2Qc (1 # 2)).
  { vm_compute in Hstep. injection Hstep as _ _ <- _. reflexivity. }
  destruct (step_reward_bounds demo_ready _ _ _ _ _ _ Hready Hstep) as [[Hlo Hhi] _].
  exists st, acts, r, self'.
  exact (conj eq_refl (conj Hr (conj Hlo Hhi))).
Defined.

(** ** The screenshot crop, continued *)

Section crop_more.
Context {Page : Type} `{!Driver Page}.
Implicit Types (self : WebEnv Page) (img : ndarray).

Lemma lookup_slice {A} (start n : Z) (l : list A) (i : nat) :
  0 ≤ start → start + n ≤ Z.of_nat (length l) → Z.of_nat i < n →
  slice start (start + n) l !! i = l !! (Z.to_nat start + i)%nat.
Proof.
  intros Hs Hn Hi. unfold slice, slice_indices.
  rewrite !slice_bound_nonneg by lia.
  rewrite lookup_take_lt by lia. rewrite lookup_drop. f_equal. lia.
Qed.

Lemma screenshot_int self p img (x y w h : Z) :
  page self = Some p →
  screenshot p = Ok img →
  viewport self = Some (Rect.mk (PyInt x) (PyInt y) (PyInt w) (PyInt h)) →
  _screenshot self
  = (Ok {| nd_height := (slice_indices y (y + h) (nd_height img)).2;
           nd_width := (slice_indices x (x + w) (nd_width img)).2;
           nd_rows := slice x (x + w) <$> slice y (y + h) (nd_rows img) |}, self).
Proof.
  intros Hp Himg Hv. rewrite (_screenshot_eval self p _ Hp Hv), Himg. reflexivity.
Qed.

Lemma crop_pixel_at self p img (x y w h : Z) (i j : Z) crop :
  page self = Some p →
  screenshot p = Ok img →
  well_shaped img →
  viewport self = Some (Rect.mk (PyInt x) (PyInt y) (PyInt w) (PyInt h)) →
  0 ≤ x → 0 ≤ y → y + h ≤ nd_height img → x + w ≤ nd_width img →
  (_screenshot self).1 = Ok crop →
  0 ≤ i < h → 0 ≤ j < w →
  pixel_at crop i j = pixel_at img (y + i) (x + j) ∧ is_Some (pixel_at crop i j).
Proof.
  intros Hp Himg (HH & Hrows & HW) Hv Hx Hy Hfit1 Hfit2 Hcrop Hi Hj.
  rewrite (screenshot_int self p img x y w h Hp Himg Hv) in Hcrop.
  injection Hcrop as <-. unfold pixel_at. cbn [nd_rows].
  rewrite list_lookup_fmap, lookup_slice by lia.
  replace (Z.to_nat y + Z.to_nat i)%nat with (Z.to_nat (y + i)) by lia.
  destruct (nd_rows img !! Z.to_nat (y + i)) as [row|] eqn:Hrow.
  - assert (Hlen : Z.of_nat (length row) = nd_width img).
    { by apply (Forall_lookup_1 _ _ _ _ Hrows Hrow). }
    simpl. rewrite lookup_slice by lia.
    replace (Z.to_nat x + Z.to_nat j)%nat with (Z.to_nat (x + j)) by lia.
    split; [done|]. apply lookup_lt_is_Some. lia.
  - apply lookup_ge_None in Hrow. lia.
Qed.
End crop_more.

(** X15.  For a viewport with integer coordinates that lies within the
    screenshot, the crop holds the pixels of rows [y, y+height) and columns
    [x, x+width) of the screenshot: its pixel (i, j) is the screenshot's
    pixel (y+i, x+j). *)
Theorem crop_pixels {Page : Type} `{!Driver Page}
    (self : WebEnv Page) (p : Page) (img crop : ndarray) (x y w h i j : Z) :
  page self = Some p →
  screenshot p = Ok img →
  well_shaped img →
  viewport self = Some (Rect.mk (PyInt x) (PyInt y) (PyInt w) (PyInt h)) →
  0 ≤ x → 0 ≤ y → y + h ≤ nd_height img → x + w ≤ nd_width img →
  (_screenshot self).1 = Ok crop →
  0 ≤ i < h → 0 ≤ j < w →
  pixel_at crop i j = pixel_at img (y + i) (x + j) ∧ is_Some (pixel_at crop i j).
Proof. apply crop_pixel_at. Qed.

(** X16.  A negative slice bound counts from the end of the array: for a
    viewport no higher than the screenshot whose top edge lies above it
    (y < 0 <= y + height), the crop succeeds and has no rows. *)
Theorem crop_above_top_is_empty {Page : Type} `{!Driver Page}
    (self : WebEnv Page) (p : Page) (img : ndarray) (x y w h : Z) :
  page self = Some p →
  screenshot p = Ok img →
  well_shaped img →
  viewport self = Some (Rect.mk (PyInt x) (PyInt y) (PyInt w) (PyInt h)) →
  y < 0 → 0 ≤ y + h → h ≤ nd_height img →
  ∃ crop : ndarray,
    _screenshot self = (Ok crop, self)
    ∧ nd_height crop = 0 ∧ nd_rows crop = [].
Proof.
  intros Hp Himg (HH & _ & _) Hv Hy Hyh Hh.
  rewrite (screenshot_int self p img x y w h Hp Himg Hv).
  eexists. split; [reflexivity|]. cbn [nd_height nd_rows].
  unfold slice, slice_indices, slice_bound. rewrite HH.
  rewrite bool_decide_true by lia. rewrite bool_decide_false by lia.
  cbn [snd]. replace (Z.max 0 _) with 0 by lia. done.
Qed.

Lemma crop_pixels_witness :
  ∃ crop : ndarray,
    (_screenshot demo_go).1 = Ok crop
    ∧ pixel_at crop 3 5 = pixel_at demo_screenshot (8 + 3) (8 + 5)
    ∧ is_Some (pixel_at crop 3 5).
Proof.
  assert (Hws : well_shaped demo_screenshot).
  { split; [reflexivity|]. split; [|simpl; lia].
    apply Forall_forall. intros row Hrow%elem_of_replicate.
    destruct Hrow as [-> _]. reflexivity. }
  destruct (_screenshot demo_go).1 as [crop|e] eqn:Hcrop;
    [|vm_compute in Hcrop; discriminate].
  exists crop. split; [reflexivity|].
  apply (crop_pixels demo_go {| loaded := true; go_hits := 0 |} demo_screenshot crop
           8 8 40 20 3 5);
    [by vm_compute|reflexivity|exact Hws|by vm_compute|lia|lia|simpl; lia|simpl; lia
    |exact Hcrop|lia|lia].
Defined.

Lemma crop_above_top_is_empty_witness :
  ∃ crop : ndarray,
    _screenshot demo_scrolled = (Ok crop, demo_scrolled)
    ∧ nd_height crop = 0 ∧ nd_rows crop = [].
Proof.
  assert (Hws : well_shaped demo_screenshot).
  { split; [reflexivity|]. split; [|simpl; lia].
    apply Forall_forall. intros row Hrow%elem_of_replicate.
    destruct Hrow as [-> _]. reflexivity. }
  apply (crop_above_top_is_empty demo_scrolled {| loaded := true; go_hits := 0 |}
           demo_screenshot 0 (-5) 80 30);
    [by vm_compute|reflexivity|exact Hws|by vm_compute|lia|lia|simpl; lia].
Defined.

(** ** The selector builder, continued *)

Section selector_more.
Implicit Types (e p : element) (t : tree) (c : list frame).

Lemma append_cons (a : ascii) (s1 s2 : string) :
  String a s1 +:+ s2 = String a (s1 +:+ s2).
Proof. reflexivity. Qed.

Lemma append_assoc (s1 s2 s3 : string) : (s1 +:+ s2) +:+ s3 = s1 +:+ s2 +:+ s3.
Proof. induction s1 as [|a s1 IH]; [done|]. rewrite !append_cons. f_equal. apply IH. Qed.

Lemma append_inj_suffix (s1 s2 : string) (a : ascii) :
  s1 +:+ String a "" = s2 +:+ String a "" → s1 = s2.
Proof.
  revert s2. induction s1 as [|b s1 IH]; intros [|b' s2] Heq.
  - done.
  - rewrite append_cons in Heq. injection Heq as _ Heq. by destruct s2.
  - rewrite append_cons in Heq. injection Heq as _ Heq. by destruct s1.
  - rewrite !append_cons in Heq. injection Heq as -> Heq. f_equal. by apply IH.
Qed.

Lemma concat_snoc (sep : string) (l : list string) (x : string) :
  l ≠ [] → String.concat sep (l ++ [x]) = String.concat sep l +:+ sep +:+ x.
Proof.
  induction l as [|y l IH]; [done|]. intros _.
  destruct l as [|z l]; [done|].
  change (String.concat sep ((y :: z :: l) ++ [x]))
    with (y +:+ sep +:+ String.concat sep ((z :: l) ++ [x])).
  rewrite IH by done.
  change (String.concat sep (y :: z :: l))
    with (y +:+ sep +:+ String.concat sep (z :: l)).
  by rewrite !append_assoc.
Qed.

Lemma upto_id_nonempty (chain : list element) : chain ≠ [] → upto_id chain ≠ [].
Proof. destruct chain as [|e rest]; [done|]. intros _. simpl. by destruct (truthy _). Qed.

Lemma parentNode_element e p :
  parentNode (Element e) = Some (Element p) →
  ∃ f up,
    ctx e = f :: up
    ∧ p = {| focus := Node (f_tagName f) (f_localName f) (f_id f)
                           (reverse (f_left f) ++ focus e :: f_right f);
             ctx := up |}.
Proof.
  unfold parentNode. destruct (ctx e) as [|f up]; [done|].
  intros [= <-]. by exists f, up.
Qed.

Lemma fullPath_child e p :
  parentNode (Element e) = Some (Element p) →
  id e = "" →
  fullPath e
  = fullPath p +:+ " > " +:+ toLowerCase (tagName e) +:+ ":nth-child("
      +:+ pretty (S (left_siblings e)) +:+ ")".
Proof.
  intros (f & up & Hctx & ->)%parentNode_element Hid.
  rewrite !fullPath_buildSelector. unfold buildSelector, ancestors.
  destruct e as [t c]. simpl in Hctx. subst c. cbn [focus ctx].
  cbn [ancestors_from upto_id]. rewrite Hid. cbn [truthy].
  rewrite fmap_cons, reverse_cons.
  rewrite concat_snoc.
  - f_equal. f_equal. unfold segment. rewrite Hid. reflexivity.
  - intros Hnil%(f_equal length). rewrite length_reverse, length_fmap in Hnil.
    apply nil_length_inv in Hnil. revert Hnil. apply upto_id_nonempty.
    by destruct up.
Qed.
End selector_more.

(** X17.  The selector of an element without id is the selector of its
    parent element, followed by " > ", its lowercase tag name and
    ':nth-child(c)' with c one plus the number of its preceding element
    siblings; this holds whether or not the parent's selector starts at an
    id. *)
Theorem fullPath_extends_parent (e p : element) :
  parentNode (Element e) = Some (Element p) →
  id e = "" →
  fullPath e
  = fullPath p +:+ " > " +:+ toLowerCase (tagName e) +:+ ":nth-child("
      +:+ pretty (S (left_siblings e)) +:+ ")".
Proof. apply fullPath_child. Qed.

Lemma fullPath_extends_parent_witness :
  fullPath list_item_3
  = fullPath list_ul +:+ " > " +:+ "li" +:+ ":nth-child(" +:+ "3" +:+ ")"
  ∧ fullPath list_item_3 = "html > body:nth-child(1) > ul:nth-child(1) > li:nth-child(3)".
Proof.
  split; [|reflexivity].
  exact (fullPath_extends_parent list_item_3 list_ul eq_refl eq_refl).
Defined.

(** X18.  Two elements without id that have the same parent element and the
    same tag name, at different positions among its element children, get
    different selectors. *)
Theorem fullPath_distinguishes_siblings (e1 e2 p : element) :
  parentNode (Element e1) = Some (Element p) →
  parentNode (Element e2) = Some (Element p) →
  id e1 = "" → id e2 = "" →
  toLowerCase (tagName e1) = toLowerCase (tagName e2) →
  left_siblings e1 ≠ left_siblings e2 →
  fullPath e1 ≠ fullPath e2.
Proof.
  intros Hp1 Hp2 Hid1 Hid2 Htag Hpos Heq.
  rewrite (fullPath_child e1 p Hp1 Hid1), (fullPath_child e2 p Hp2 Hid2), Htag in Heq.
  do 4 apply String.app_inj in Heq.
  apply append_inj_suffix in Heq. apply (inj pretty) in Heq. congruence.
Qed.

Lemma fullPath_distinguishes_siblings_witness :
  fullPath list_item_1 ≠ fullPath list_item_3.
Proof.
  apply (fullPath_distinguishes_siblings list_item_1 list_item_3 list_ul);
    [reflexivity..|]. by vm_compute.
Defined.
